(** * Smart chair firmware (test-final.ino): acquisition cycle and status LEDs

    A shallow embedding of the sketch: the GPIO output latches are a finite
    map from pin number to level, every call into the Arduino core or a
    driver is recorded in a log, and whatever the hardware answers (ADC
    conversions, WiFi status, sensor readings) comes from an environment that
    may look at the whole log so far. *)

From Stdlib Require Import ZArith List Ascii String DecimalString DecimalPos DecimalZ
  SpecFloat Lia.
From stdpp Require Import base gmap strings list.

Local Open Scope string_scope.
Local Open Scope list_scope.
Local Open Scope Z_scope.

(** ** Pin and threshold constants (lines 8-23) *)

Definition S0 : Z := 25.
Definition S1 : Z := 26.
Definition S2 : Z := 27.
Definition S3 : Z := 32.
Definition MUX_SIG : Z := 34.
Definition GREEN_LED : Z := 12.
Definition RED_LED : Z := 14.
Definition BUILTIN_LED : Z := 2.
Definition DHTPIN : Z := 4.
Definition PRESSURE_THRESHOLD : Z := 100.

Definition HIGH : Z := 1.
Definition LOW : Z := 0.

(** ** Events and the world *)

Inductive PinMode := INPUT | OUTPUT.

(** A C [float]: an IEEE-754 binary32 datum. *)
Definition float := spec_float.

Record sensors_vec := { vx : float; vy : float; vz : float }.

Inductive Event :=
| ESerialBegin (baud : Z)
| EPinMode (pin : Z) (mode : PinMode)
| EDigitalWrite (pin : Z) (level : bool)
| EDelay (ms : Z)
| EAnalogRead (pin : Z) (value : Z)
| ESerial (text : string)
| EWiFiBegin (id pass : string)
| EWiFiStatus (status : Z)
| EWiFiLocalIP (ip : string)
| EHttpBegin (url : string)
| EHttpFollowRedirects
| EHttpAddHeader (name value : string)
| EHttpGet (code : Z)
| EHttpGetString (payload : string)
| EHttpEnd
| EWireBegin (sda scl : Z)
| EMpuBegin (ok : bool)
| EMpuConfig (what : string)
| EMpuGetEvent (a g : sensors_vec) (temp : float)
| EDhtBegin
| EDhtReadHumidity (value : float)
| EDhtReadTemperature (value : float).

Record World := mkWorld {
  pins : gmap Z bool;      (* output latch of every pin written so far *)
  log : list Event         (* everything done so far, oldest first *)
}.

(** What a pin's output latch becomes when an event happens: only a
    [digitalWrite] touches it. *)
Definition apply_event (e : Event) (p : gmap Z bool) : gmap Z bool :=
  match e with
  | EDigitalWrite pin level => <[pin := level]> p
  | _ => p
  end.

(** The latches after a whole stretch of log. *)
Definition replay (p : gmap Z bool) (tr : list Event) : gmap Z bool :=
  foldl (fun q e => apply_event e q) p tr.

(** Level of a pin, [false] (low) while it was never written. *)
Definition level (p : gmap Z bool) (pin : Z) : bool := default false (p !! pin).

(** ** The environment: answers of the hardware and of the libraries *)

Record Env := mkEnv {
  env_analogRead : list Event -> Z -> Z;
  env_wifi_status : list Event -> Z;
  env_wifi_localIP : list Event -> string;
  env_http_GET : list Event -> Z;
  env_http_getString : list Event -> string;
  env_http_errorToString : Z -> string;
  env_mpu_begin : list Event -> bool;
  env_mpu_getEvent : list Event -> sensors_vec * sensors_vec * float;
  env_dht_readHumidity : list Event -> float;
  env_dht_readTemperature : list Event -> float;
  env_String_float : float -> Z -> string      (* String(float, decimalPlaces) *)
}.

(** ** The state monad of the sketch *)

Definition M (A : Type) : Type := World -> A * World.

Definition ret {A} (a : A) : M A := fun w => (a, w).
Definition bind {A B} (m : M A) (k : A -> M B) : M B :=
  fun w => let (a, w') := m w in k a w'.

Declare Scope fw_scope.
Delimit Scope fw_scope with fw.
Notation "x <- m ;; k" := (bind m (fun x => k))
  (at level 100, m at next level, k at level 200, right associativity) : fw_scope.
Notation "m ;; k" := (bind m (fun _ => k))
  (at level 100, k at level 200, right associativity) : fw_scope.
Local Open Scope fw_scope.

Definition exec {A} (m : M A) (w : World) : World := snd (m w).
Definition eval {A} (m : M A) (w : World) : A := fst (m w).

(** The events a run of [m] adds to the log of [w]. *)
Definition emitted {A} (m : M A) (w : World) : list Event :=
  drop (length (log w)) (log (exec m w)).

Definition emit (e : Event) : M unit :=
  fun w => (tt, {| pins := apply_event e (pins w); log := log w ++ [e] |}).

(** An input: the environment answers from the log so far, and the answer
    is logged. *)
Definition input {A} (ask : list Event -> A) (ev : A -> Event) : M A :=
  fun w => let a := ask (log w) in (a, snd (emit (ev a) w)).

(** ** C integers and strings *)

Definition INT_MAX : Z := 2147483647.

(** Two's complement wrap of a 32-bit [int]. *)
Definition wrap_int (z : Z) : Z := (z + 2147483648) mod 4294967296 - 2147483648.

(** Conversion to [byte] (uint8_t). *)
Definition to_byte (z : Z) : Z := z mod 256.

(** [bitRead(value, bit)] is [((value) >> (bit)) & 0x01]. *)
Definition bitRead (value b : Z) : Z := Z.land (Z.shiftr value b) 1.

(** [String(int)]: decimal, with a minus sign for negatives. *)
Definition String_int (z : Z) : string := NilZero.string_of_int (Z.to_int z).

Definition TAB : string := String (ascii_of_nat 9) EmptyString.
Definition LF : string := String (ascii_of_nat 10) EmptyString.
Definition CRLF : string := String (ascii_of_nat 13) LF.

(** [(float)(-1)]: the int -1 rounded to binary32. *)
Definition float_of_int (z : Z) : float := binary_normalize 24 128 z 0 false.

Definition isnan (f : float) : bool :=
  match f with S754_nan => true | _ => false end.

(** Library constants: [WL_CONNECTED] of WiFi.h, [HTTP_CODE_OK] of HTTPClient.h. *)
Definition WL_CONNECTED : Z := 3.
Definition HTTP_CODE_OK : Z := 200.

Definition ssid : string := "******".
Definition password : string := "*******".
Definition googleScriptUrl : string :=
  "https://script.google.com/macros/s/AKfycbwFf7epl4aLooQaQuwpO4kNYRSF6kAoNyJt2rCd3dNmlJ4ajh6qG7rEZkanURfMmF3PlQ/exec".

(** ** Arduino core calls *)

Definition pinMode (pin : Z) (mode : PinMode) : M unit := emit (EPinMode pin mode).

(** [digitalWrite(pin, val)]: any non-zero [val] drives the pin high. *)
Definition digitalWrite (pin val : Z) : M unit :=
  emit (EDigitalWrite pin (negb (val =? 0))).

Definition digitalRead (pin : Z) : M Z :=
  fun w => (if level (pins w) pin then HIGH else LOW, w).

Definition delay (ms : Z) : M unit := emit (EDelay ms).

Definition Serial_print (s : string) : M unit := emit (ESerial s).
Definition Serial_println (s : string) : M unit := emit (ESerial (s +:+ CRLF)).

(** [for (int i = start; i < bound; i++)] run for its [count] rounds,
    threading the locals [s] that the body updates.  The index never
    overflows: it stays at or below the bound, itself an [int]. *)
Fixpoint for_loop {S} (count : nat) (i : Z) (body : Z -> S -> M S) (s : S) : M S :=
  match count with
  | O => ret s
  | Datatypes.S c => s' <- body i s ;; for_loop c (i + 1) body s'
  end.

(** ** The sketch *)

(** Lines 36-41. *)
Definition selectMuxChannel (channel : Z) : M unit :=
  digitalWrite S0 (bitRead channel 0) ;;
  digitalWrite S1 (bitRead channel 1) ;;
  digitalWrite S2 (bitRead channel 2) ;;
  digitalWrite S3 (bitRead channel 3).

(** Lines 196-197, with the literal 4 as [alertThreshold]. *)
Definition green_value (activeSensors alertThreshold : Z) : Z :=
  if activeSensors >? alertThreshold then HIGH else LOW.
Definition red_value (activeSensors alertThreshold : Z) : Z :=
  if activeSensors >? alertThreshold then LOW else HIGH.

Definition update_leds (activeSensors alertThreshold : Z) : M unit :=
  digitalWrite GREEN_LED (green_value activeSensors alertThreshold) ;;
  digitalWrite RED_LED (red_value activeSensors alertThreshold).

Section Firmware.
Variable env : Env.

Definition analogRead (pin : Z) : M Z :=
  input (fun h => env_analogRead env h pin) (EAnalogRead pin).

Definition WiFi_status : M Z := input (env_wifi_status env) EWiFiStatus.
Definition WiFi_localIP : M string := input (env_wifi_localIP env) EWiFiLocalIP.
Definition http_GET : M Z := input (env_http_GET env) EHttpGet.
Definition http_getString : M string := input (env_http_getString env) EHttpGetString.
Definition mpu_begin : M bool := input (env_mpu_begin env) EMpuBegin.
Definition mpu_getEvent : M (sensors_vec * sensors_vec * float) :=
  input (env_mpu_getEvent env) (fun r => EMpuGetEvent (fst (fst r)) (snd (fst r)) (snd r)).
Definition dht_readHumidity : M float := input (env_dht_readHumidity env) EDhtReadHumidity.
Definition dht_readTemperature : M float :=
  input (env_dht_readTemperature env) EDhtReadTemperature.

Definition String_float (f : float) (decimalPlaces : Z) : string :=
  env_String_float env f decimalPlaces.

(** Lines 50-55: [remaining] is [20 - attempts]; the status is asked before
    [attempts < 20] is looked at. *)
Fixpoint wifi_wait (remaining : nat) : M unit :=
  st <- WiFi_status ;;
  if st =? WL_CONNECTED then ret tt else
  match remaining with
  | O => ret tt
  | Datatypes.S r =>
      cur <- digitalRead BUILTIN_LED ;;
      digitalWrite BUILTIN_LED (if cur =? 0 then 1 else 0) ;;
      delay 500 ;;
      Serial_print "." ;;
      wifi_wait r
  end.

(** Lines 43-67. *)
Definition connectToWiFi : M unit :=
  Serial_println "Connecting to WiFi..." ;;
  emit (EWiFiBegin ssid password) ;;
  pinMode BUILTIN_LED OUTPUT ;;
  wifi_wait 20 ;;
  st <- WiFi_status ;;
  if st =? WL_CONNECTED then
    digitalWrite BUILTIN_LED HIGH ;;
    Serial_println "" ;;
    Serial_println "WiFi Connected" ;;
    Serial_print "IP Address: " ;;
    ip <- WiFi_localIP ;;
    Serial_println ip
  else
    Serial_println "" ;;
    Serial_println "WiFi Connection Failed".

(** Lines 69-95. *)
Definition sendDataToGoogleSheets (data : string) : M unit :=
  st <- WiFi_status ;;
  if st =? WL_CONNECTED then
    let fullUrl := googleScriptUrl +:+ "?" +:+ data in
    Serial_println ("Sending to URL: " +:+ fullUrl) ;;
    emit (EHttpBegin fullUrl) ;;
    emit EHttpFollowRedirects ;;
    emit (EHttpAddHeader "Content-Type" "application/x-www-form-urlencoded") ;;
    httpCode <- http_GET ;;
    (if httpCode =? HTTP_CODE_OK then
       payload <- http_getString ;;
       Serial_println ("Server Response: " +:+ payload)
     else
       Serial_print ("HTTP Error: " +:+ String_int httpCode +:+ " - "
                      +:+ env_http_errorToString env httpCode +:+ LF)) ;;
    emit EHttpEnd
  else
    Serial_println "WiFi Disconnected - Attempting to reconnect" ;;
    connectToWiFi.

(** Lines 97-136.  The result tells whether [loop] is ever reached: when the
    MPU6050 is not found the sketch spins in [while (1) delay(10)], which
    touches no pin.  The wait of line 99 is left out: on this core [Serial]
    converts to true once [begin] has run. *)
Definition setup : M bool :=
  emit (ESerialBegin 115200) ;;
  pinMode S0 OUTPUT ;;
  pinMode S1 OUTPUT ;;
  pinMode S2 OUTPUT ;;
  pinMode S3 OUTPUT ;;
  pinMode MUX_SIG INPUT ;;
  pinMode GREEN_LED OUTPUT ;;
  pinMode RED_LED OUTPUT ;;
  digitalWrite RED_LED HIGH ;;
  digitalWrite GREEN_LED LOW ;;
  connectToWiFi ;;
  emit (EWireBegin 21 22) ;;
  found <- mpu_begin ;;
  if negb found then
    Serial_println "Failed to find MPU6050 chip" ;;
    ret false
  else
    Serial_println "MPU6050 Found!" ;;
    emit (EMpuConfig "setAccelerometerRange(MPU6050_RANGE_8_G)") ;;
    emit (EMpuConfig "setGyroRange(MPU6050_RANGE_500_DEG)") ;;
    emit (EMpuConfig "setFilterBandwidth(MPU6050_BAND_21_HZ)") ;;
    emit EDhtBegin ;;
    Serial_println "DHT22 Initialized" ;;
    delay 2000 ;;
    ret true.

(** One round of the loop of lines 143-160; the locals it updates are
    [fsrData] and [activeSensors].  The literals 12 and 11 of the source are
    [channelCount] and [channelCount - 1], PRESSURE_THRESHOLD is
    [threshold]. *)
Definition sweep_body (channelCount threshold : Z) (i : Z) (st : string * Z)
  : M (string * Z) :=
  let '(fsrData, activeSensors) := st in
  selectMuxChannel (to_byte i) ;;
  delay 10 ;;
  fsrValue <- analogRead MUX_SIG ;;
  let activeSensors :=
    if fsrValue >? threshold then wrap_int (activeSensors + 1) else activeSensors in
  let fsrData := fsrData +:+ ("fsr" +:+ String_int i +:+ "=" +:+ String_int fsrValue) in
  let fsrData := if i <? channelCount - 1 then fsrData +:+ "&" else fsrData in
  Serial_print "FSR" ;;
  Serial_print (String_int i) ;;
  Serial_print ": " ;;
  Serial_print (String_int fsrValue) ;;
  Serial_print TAB ;;
  ret (fsrData, activeSensors).

(** Lines 140-160: the sweep over the multiplexer channels, from
    [fsrData = ""] and [activeSensors = 0]. *)
Definition sweep (channelCount threshold : Z) : M (string * Z) :=
  for_loop (Z.to_nat channelCount) 0 (sweep_body channelCount threshold) ("", 0).

(** Lines 171-175. *)
Definition dht_check (humidity dhtTemp : float) : M (float * float) :=
  if isnan humidity || isnan dhtTemp then
    Serial_println "Failed to read from DHT sensor!" ;;
    ret (float_of_int (-1), float_of_int (-1))
  else ret (humidity, dhtTemp).

(** Lines 178-188. *)
Definition postData_of (fsrData : string) (activeSensors : Z)
    (a g : sensors_vec) (temp humidity dhtTemp : float) : string :=
  fsrData +:+
  "&active=" +:+ String_int activeSensors +:+
  "&accelX=" +:+ String_float (vx a) 2 +:+
  "&accelY=" +:+ String_float (vy a) 2 +:+
  "&accelZ=" +:+ String_float (vz a) 2 +:+
  "&gyroX=" +:+ String_float (vx g) 2 +:+
  "&gyroY=" +:+ String_float (vy g) 2 +:+
  "&gyroZ=" +:+ String_float (vz g) 2 +:+
  "&mpuTemp=" +:+ String_float temp 2 +:+
  "&dhtHumidity=" +:+ String_float humidity 2 +:+
  "&dhtTemp=" +:+ String_float dhtTemp 2.

(** Lines 139-190 of [loop]: acquisition, up to the complete data string. *)
Definition acquire : M (string * Z) :=
  sw <- sweep 12 PRESSURE_THRESHOLD ;;
  let '(fsrData, activeSensors) := sw in
  Serial_println "" ;;
  ev <- mpu_getEvent ;;
  let '(a, g, temp) := ev in
  humidity <- dht_readHumidity ;;
  dhtTemp <- dht_readTemperature ;;
  ht <- dht_check humidity dhtTemp ;;
  let '(humidity, dhtTemp) := ht in
  let postData := postData_of fsrData activeSensors a g temp humidity dhtTemp in
  Serial_println ("Complete Data: " +:+ postData) ;;
  ret (postData, activeSensors).

(** Lines 138-200. *)
Definition loop : M unit :=
  r <- acquire ;;
  let '(postData, activeSensors) := r in
  sendDataToGoogleSheets postData ;;
  update_leds activeSensors 4 ;;
  delay 500.

(** [setup] once, then [loop] again and again: the first [n] rounds. *)
Fixpoint loops (n : nat) : M unit :=
  match n with
  | O => ret tt
  | Datatypes.S k => loop ;; loops k
  end.

Definition firmware (n : nat) : M unit :=
  started <- setup ;;
  if started then loops n else ret tt.

End Firmware.

(** ** Reading the log and the pins *)

(** The samples of the analog input found in a stretch of log, in order. *)
Definition analog_samples (tr : list Event) : list Z :=
  omap (fun e => match e with EAnalogRead _ v => Some v | _ => None end) tr.

Definition humidity_reads (tr : list Event) : list float :=
  omap (fun e => match e with EDhtReadHumidity v => Some v | _ => None end) tr.

Definition temperature_reads (tr : list Event) : list float :=
  omap (fun e => match e with EDhtReadTemperature v => Some v | _ => None end) tr.

(** The four writes of one channel selection: bit k of the channel on line k. *)
Definition select_events (channel : Z) : list Event :=
  [EDigitalWrite S0 (Z.testbit channel 0); EDigitalWrite S1 (Z.testbit channel 1);
   EDigitalWrite S2 (Z.testbit channel 2); EDigitalWrite S3 (Z.testbit channel 3)].

(** The channel the multiplexer routes: the select lines read as a binary
    number, S0 the least significant bit. *)
Definition mux_channel (p : gmap Z bool) : Z :=
  Z.b2z (level p S0) + 2 * Z.b2z (level p S1)
  + 4 * Z.b2z (level p S2) + 8 * Z.b2z (level p S3).

(** Everything one round of the sweep does, for channel [i] sampled as [v]. *)
Definition sweep_block (i v : Z) : list Event :=
  select_events (to_byte i) ++
  [EDelay 10; EAnalogRead MUX_SIG v;
   ESerial "FSR"; ESerial (String_int i); ESerial ": ";
   ESerial (String_int v); ESerial TAB].

Fixpoint sweep_trace (i : Z) (vs : list Z) : list Event :=
  match vs with
  | [] => []
  | v :: vs' => sweep_block i v ++ sweep_trace (i + 1) vs'
  end.

(** Number of samples strictly above a threshold. *)
Definition count_above (t : Z) (vs : list Z) : Z :=
  Z.of_nat (length (filter (fun v => t < v) vs)).

(** The query-string fields of a sequence of samples, the first one being
    channel [i]. *)
Fixpoint fsr_fields (i : Z) (vs : list Z) : list string :=
  match vs with
  | [] => []
  | v :: vs' => ("fsr" +:+ String_int i +:+ "=" +:+ String_int v) :: fsr_fields (i + 1) vs'
  end.

Definition fsr_query (vs : list Z) : string := String.concat "&" (fsr_fields 0 vs).

(** ** Status of the indicator LEDs *)

Inductive StatusState := NORMAL | ALERT.

(** How the two indicator levels read: green alone is ALERT, red alone is
    NORMAL, anything else is no status. *)
Definition status_of_levels (green red : bool) : option StatusState :=
  match green, red with
  | true, false => Some ALERT
  | false, true => Some NORMAL
  | _, _ => None
  end.

Definition status_of_pins (p : gmap Z bool) : option StatusState :=
  status_of_levels (level p GREEN_LED) (level p RED_LED).

(** The status the two ternaries of lines 196-197 put on the LEDs. *)
Definition decide_status (activeCount alertThreshold : Z) : option StatusState :=
  status_of_levels (negb (green_value activeCount alertThreshold =? 0))
                   (negb (red_value activeCount alertThreshold =? 0)).

(** The status as the specification words it. *)
Definition decide_spec (activeCount alertThreshold : Z) : StatusState :=
  if bool_decide (activeCount > alertThreshold) then ALERT else NORMAL.

(** Exactly one of the two indicator outputs is high. *)
Definition leds_exclusive (p : gmap Z bool) : Prop :=
  xorb (level p GREEN_LED) (level p RED_LED) = true.

(** ** A scripted environment, for running the sketch on concrete inputs *)

Definition zero_vec : sensors_vec :=
  {| vx := S754_zero false; vy := S754_zero false; vz := S754_zero false |}.

(** The k-th conversion of the ADC is the k-th entry of [samples] (0 once the
    script is used up); the WiFi status, the humidity and the temperature are
    constant. *)
Definition scripted (samples : list Z) (wifi : Z) (hum tmp : float) : Env :=
  {| env_analogRead := fun h _ => nth (length (analog_samples h)) samples 0;
     env_wifi_status := fun _ => wifi;
     env_wifi_localIP := fun _ => "10.0.0.2";
     env_http_GET := fun _ => 200;
     env_http_getString := fun _ => "ok";
     env_http_errorToString := fun _ => "error";
     env_mpu_begin := fun _ => true;
     env_mpu_getEvent := fun _ => (zero_vec, zero_vec, S754_zero false);
     env_dht_readHumidity := fun _ => hum;
     env_dht_readTemperature := fun _ => tmp;
     env_String_float := fun f _ =>
       match f with
       | S754_nan => "nan"
       | S754_zero _ => "0.00"
       | S754_finite true 8388608 (-23) => "-1.00"
       | _ => "#"
       end |}.

Definition power_on : World := mkWorld ∅ [].

(** [run_adds m w tr]: from [w], the run of [m] appends exactly [tr] to the
    log, and the latches follow the writes in [tr]. *)
Definition run_adds {A} (m : M A) (w : World) (tr : list Event) : Prop :=
  log (exec m w) = log w ++ tr /\ pins (exec m w) = replay (pins w) tr.

(** The two locals of the sweep after one more sample [v] of channel [i]:
    the pure part of lines 148-153. *)
Definition fsr_step (channelCount i : Z) (fsrData : string) (v : Z) : string :=
  let s := fsrData +:+ ("fsr" +:+ String_int i +:+ "=" +:+ String_int v) in
  if i <? channelCount - 1 then s +:+ "&" else s.

Definition active_step (threshold activeSensors v : Z) : Z :=
  if v >? threshold then wrap_int (activeSensors + 1) else activeSensors.

Fixpoint fsr_fold (channelCount i : Z) (fsrData : string) (vs : list Z) : string :=
  match vs with
  | [] => fsrData
  | v :: vs' => fsr_fold channelCount (i + 1) (fsr_step channelCount i fsrData v) vs'
  end.

Fixpoint active_fold (threshold activeSensors : Z) (vs : list Z) : Z :=
  match vs with
  | [] => activeSensors
  | v :: vs' => active_fold threshold (active_step threshold activeSensors v) vs'
  end.

(** An event that leaves both indicator LEDs alone. *)
Definition led_free (e : Event) : Prop :=
  match e with
  | EDigitalWrite pin _ => pin <> GREEN_LED /\ pin <> RED_LED
  | _ => True
  end.

(** [emits P m]: whatever the world, [m] only adds events that satisfy [P]. *)
Definition emits {A} (P : Event -> Prop) (m : M A) : Prop :=
  forall w, exists tr, run_adds m w tr /\ Forall P tr.

(** The log right after the write of line 196: its last event is a write to
    the green LED. *)
Definition ends_with_green_write (tr : list Event) : Prop :=
  exists tr' g, tr = tr' ++ [EDigitalWrite GREEN_LED g].

(** The events of one acquisition (lines 139-190): the sweep over the samples
    [vs], then the MPU6050 and DHT22 readings and the serial echo of the
    data string [pd]. *)
Definition acquire_trace (vs : list Z) (a g : sensors_vec) (temp h t : float)
    (pd : string) : list Event :=
  sweep_trace 0 vs
  ++ [ESerial ("" +:+ CRLF); EMpuGetEvent a g temp;
      EDhtReadHumidity h; EDhtReadTemperature t]
  ++ (if isnan h || isnan t
      then [ESerial ("Failed to read from DHT sensor!" +:+ CRLF)] else [])
  ++ [ESerial (("Complete Data: " +:+ pd) +:+ CRLF)].

(** The humidity and temperature that go into the data string, given the two
    values read: the pure part of lines 171-175. *)
Definition checked_dht (h t : float) : float * float :=
  if isnan h || isnan t then (float_of_int (-1), float_of_int (-1)) else (h, t).

(** A stretch of log after which the LEDs are exclusive, and before whose
    end they are exclusive too except right after a write to the green one. *)
Definition led_disciplined (p : gmap Z bool) (tr : list Event) : Prop :=
  leds_exclusive (replay p tr)
  /\ forall pre, pre `prefix_of` tr ->
       leds_exclusive (replay p pre) \/ ends_with_green_write pre.

(** Every one of the twelve sensors pressed hard, WiFi connected, DHT22
    reading zeros. *)
Definition all_pressed : Env :=
  scripted (replicate 12 4095) WL_CONNECTED (S754_zero false) (S754_zero false).

(** ** Further readings of the log *)

(** Time spent in [delay], in milliseconds. *)
Fixpoint total_delay (tr : list Event) : Z :=
  match tr with
  | [] => 0
  | EDelay ms :: tr' => ms + total_delay tr'
  | _ :: tr' => total_delay tr'
  end.

(** The answers to [WiFi.status()], in order. *)
Definition wifi_statuses (tr : list Event) : list Z :=
  omap (fun e => match e with EWiFiStatus s => Some s | _ => None end) tr.

(** The pins of the analog reads, in order. *)
Definition analog_pins (tr : list Event) : list Z :=
  omap (fun e => match e with EAnalogRead pin _ => Some pin | _ => None end) tr.

(** The URLs opened by [http.begin], in order. *)
Definition http_urls (tr : list Event) : list string :=
  omap (fun e => match e with EHttpBegin url => Some url | _ => None end) tr.

Definition is_http (e : Event) : bool :=
  match e with
  | EHttpBegin _ | EHttpFollowRedirects | EHttpAddHeader _ _
  | EHttpGet _ | EHttpGetString _ | EHttpEnd => true
  | _ => false
  end.

(** The direction of every pin after a stretch of log, from the directions
    [m] before it. *)
Definition apply_mode (e : Event) (m : gmap Z PinMode) : gmap Z PinMode :=
  match e with
  | EPinMode pin mode => <[pin := mode]> m
  | _ => m
  end.

Definition modes_after (m : gmap Z PinMode) (tr : list Event) : gmap Z PinMode :=
  foldl (fun q e => apply_mode e q) m tr.

(** Every [digitalWrite] of the stretch hits a pin that is an output at that
    moment. *)
Fixpoint writes_configured (m : gmap Z PinMode) (tr : list Event) : Prop :=
  match tr with
  | [] => True
  | e :: tr' =>
      match e with
      | EDigitalWrite pin _ => m !! pin = Some OUTPUT
      | _ => True
      end /\ writes_configured (apply_mode e m) tr'
  end.

(** An event that writes no pin outside [pins_used] and turns none of them
    into an input. *)
Definition tame (pins_used : list Z) (e : Event) : Prop :=
  match e with
  | EDigitalWrite pin _ => In pin pins_used
  | EPinMode pin INPUT => ~ In pin pins_used
  | _ => True
  end.

(** The events of the wait loop of lines 50-55, from the log [h] and the
    level [lvl] of the built-in LED when it starts, with [remaining] rounds
    to go at most. *)
Fixpoint wait_events (env : Env) (remaining : nat) (h : list Event) (lvl : bool)
  : list Event :=
  let st := env_wifi_status env h in
  if st =? WL_CONNECTED then [EWiFiStatus st] else
  match remaining with
  | O => [EWiFiStatus st]
  | Datatypes.S r =>
      let round := [EWiFiStatus st; EDigitalWrite BUILTIN_LED (negb lvl);
                    EDelay 500; ESerial "."] in
      round ++ wait_events env r (h ++ round) (negb lvl)
  end.

(** The events of [connectToWiFi] (lines 43-67), from the log [h] and the
    level [lvl] of the built-in LED. *)
Definition connect_events (env : Env) (h : list Event) (lvl : bool) : list Event :=
  let start := [ESerial ("Connecting to WiFi..." +:+ CRLF); EWiFiBegin ssid password;
                EPinMode BUILTIN_LED OUTPUT] in
  let wait := wait_events env 20 (h ++ start) lvl in
  let st := env_wifi_status env (h ++ start ++ wait) in
  start ++ wait ++ [EWiFiStatus st] ++
  (if st =? WL_CONNECTED then
     let ip := env_wifi_localIP env
                 (h ++ start ++ wait ++
                  [EWiFiStatus st; EDigitalWrite BUILTIN_LED true; ESerial ("" +:+ CRLF);
                   ESerial ("WiFi Connected" +:+ CRLF); ESerial "IP Address: "]) in
     [EDigitalWrite BUILTIN_LED true; ESerial ("" +:+ CRLF);
      ESerial ("WiFi Connected" +:+ CRLF); ESerial "IP Address: ";
      EWiFiLocalIP ip; ESerial (ip +:+ CRLF)]
   else
     [ESerial ("" +:+ CRLF); ESerial ("WiFi Connection Failed" +:+ CRLF)]).

(** The world [tr] later. *)
Definition later (w : World) (tr : list Event) : World :=
  mkWorld (replay (pins w) tr) (log w ++ tr).

(** No character of the string is an ampersand. *)
Fixpoint amp_free (s : string) : Prop :=
  match s with
  | EmptyString => True
  | String c s' => c <> "&"%char /\ amp_free s'
  end.

(** What [sendDataToGoogleSheets] does after [http.GET()] returned
    [httpCode]: lines 84-89. *)
Definition response_events (env : Env) (httpCode : Z) (payload : string) : list Event :=
  if httpCode =? HTTP_CODE_OK then
    [EHttpGetString payload; ESerial (("Server Response: " +:+ payload) +:+ CRLF)]
  else
    [ESerial ("HTTP Error: " +:+ String_int httpCode +:+ " - "
              +:+ env_http_errorToString env httpCode +:+ LF)].

(** The events of an upload with WiFi connected: lines 70-90. *)
Definition upload_events (env : Env) (data : string) (httpCode : Z) (payload : string)
  : list Event :=
  [EWiFiStatus WL_CONNECTED;
   ESerial (("Sending to URL: " +:+ googleScriptUrl +:+ "?" +:+ data) +:+ CRLF);
   EHttpBegin (googleScriptUrl +:+ "?" +:+ data);
   EHttpFollowRedirects;
   EHttpAddHeader "Content-Type" "application/x-www-form-urlencoded";
   EHttpGet httpCode]
  ++ response_events env httpCode payload ++ [EHttpEnd].

(** The pins the sketch drives. *)
Definition board_outputs : list Z := [S0; S1; S2; S3; GREEN_LED; RED_LED; BUILTIN_LED].

(** The first events of [setup]: lines 98-111. *)
Definition init_events : list Event :=
  [ESerialBegin 115200; EPinMode S0 OUTPUT; EPinMode S1 OUTPUT; EPinMode S2 OUTPUT;
   EPinMode S3 OUTPUT; EPinMode MUX_SIG INPUT; EPinMode GREEN_LED OUTPUT;
   EPinMode RED_LED OUTPUT; EDigitalWrite RED_LED true; EDigitalWrite GREEN_LED false].

(** The answer of [mpu.begin()] in a [setup] started from the log [h] with
    the built-in LED at [lvl]. *)
Definition mpu_found (env : Env) (h : list Event) (lvl : bool) : bool :=
  env_mpu_begin env
    (h ++ init_events ++ connect_events env (h ++ init_events) lvl ++ [EWireBegin 21 22]).

(** The events of [setup] (lines 97-136). *)
Definition setup_events (env : Env) (h : list Event) (lvl : bool) : list Event :=
  init_events ++ connect_events env (h ++ init_events) lvl
  ++ [EWireBegin 21 22; EMpuBegin (mpu_found env h lvl)]
  ++ (if mpu_found env h lvl then
        [ESerial ("MPU6050 Found!" +:+ CRLF);
         EMpuConfig "setAccelerometerRange(MPU6050_RANGE_8_G)";
         EMpuConfig "setGyroRange(MPU6050_RANGE_500_DEG)";
         EMpuConfig "setFilterBandwidth(MPU6050_BAND_21_HZ)";
         EDhtBegin; ESerial ("DHT22 Initialized" +:+ CRLF); EDelay 2000]
      else [ESerial ("Failed to find MPU6050 chip" +:+ CRLF)]).


(** Empty, or starting with an ampersand: what follows a field in the
    "&"-join of a list of fields. *)
Definition amp_tail (s : string) : Prop :=
  s = "" \/ exists r, s = String "&"%char r.

(** * Proofs *)

(** ** Runs and what they add to the log *)

Lemma exec_bind {A B} (m : M A) (k : A -> M B) w :
  exec (bind m k) w = exec (k (eval m w)) (exec m w).
Proof. unfold exec, eval, bind. by destruct (m w). Qed.

Lemma eval_bind {A B} (m : M A) (k : A -> M B) w :
  eval (bind m k) w = eval (k (eval m w)) (exec m w).
Proof. unfold exec, eval, bind. by destruct (m w). Qed.

Lemma replay_app p tr1 tr2 : replay p (tr1 ++ tr2) = replay (replay p tr1) tr2.
Proof. apply foldl_app. Qed.

Lemma replay_snoc p tr e : replay p (tr ++ [e]) = apply_event e (replay p tr).
Proof. by rewrite replay_app. Qed.

Lemma run_adds_emitted {A} (m : M A) w tr : run_adds m w tr -> emitted m w = tr.
Proof. intros [Hl _]. unfold emitted. rewrite Hl. apply drop_app_length. Qed.

Lemma run_adds_ret {A} (a : A) w : run_adds (ret a) w [].
Proof. split; simpl; [by rewrite app_nil_r | done]. Qed.

Lemma run_adds_emit e w : run_adds (emit e) w [e].
Proof. by split. Qed.

Lemma run_adds_input {A} (ask : list Event -> A) ev w :
  run_adds (input ask ev) w [ev (ask (log w))].
Proof. by split. Qed.

Lemma run_adds_bind {A B} (m : M A) (k : A -> M B) w tr1 tr2 :
  run_adds m w tr1 -> run_adds (k (eval m w)) (exec m w) tr2 ->
  run_adds (bind m k) w (tr1 ++ tr2).
Proof.
  intros [Hl1 Hp1] [Hl2 Hp2]. split; rewrite exec_bind.
  - by rewrite Hl2, Hl1, app_assoc.
  - by rewrite Hp2, Hp1, replay_app.
Qed.

(** ** The channel selector *)

Lemma bitRead_level c k : 0 <= k -> negb (bitRead c k =? 0) = Z.testbit c k.
Proof.
  intros Hk. unfold bitRead.
  replace 1 with (Z.ones 1) by reflexivity.
  rewrite Z.land_ones by lia. change (2 ^ 1) with 2.
  rewrite <- Z.bit0_mod, Z.shiftr_spec by lia.
  rewrite Z.add_0_l. by destruct (Z.testbit c k).
Qed.

Lemma run_adds_eq {A} (m : M A) w tr tr' : run_adds m w tr' -> tr' = tr -> run_adds m w tr.
Proof. by intros H <-. Qed.

Ltac run_steps :=
  repeat first
    [ apply run_adds_emit | apply run_adds_input | apply run_adds_ret
    | eapply run_adds_bind ].

Lemma selectMuxChannel_run c w : run_adds (selectMuxChannel c) w (select_events c).
Proof.
  unfold selectMuxChannel, digitalWrite.
  rewrite !bitRead_level by lia.
  eapply run_adds_eq; [run_steps | reflexivity].
Qed.

Lemma level_insert_eq p pin b : level (<[pin := b]> p) pin = b.
Proof. unfold level. by rewrite lookup_insert_eq. Qed.

Lemma level_insert_ne p pin pin' b :
  pin <> pin' -> level (<[pin := b]> p) pin' = level p pin'.
Proof. intros. unfold level. by rewrite lookup_insert_ne. Qed.

Lemma low_bits_sum c :
  Z.land c 15 = Z.b2z (Z.testbit c 0) + 2 * Z.b2z (Z.testbit c 1)
                + 4 * Z.b2z (Z.testbit c 2) + 8 * Z.b2z (Z.testbit c 3).
Proof.
  replace 15 with (Z.ones 4) by reflexivity.
  rewrite Z.land_ones by lia.
  assert (Hbit : forall k, 0 <= k -> Z.b2z (Z.testbit c k) = (c / 2 ^ k) mod 2).
  { intros k Hk. rewrite <- Z.shiftr_div_pow2, <- Z.bit0_mod, Z.shiftr_spec by lia.
    by rewrite Z.add_0_l. }
  rewrite !Hbit by lia.
  change (2 ^ 0) with 1; change (2 ^ 1) with 2; change (2 ^ 2) with 4;
    change (2 ^ 3) with 8; change (2 ^ 4) with 16.
  Z.div_mod_to_equations. lia.
Qed.

Lemma mux_channel_select p c : mux_channel (replay p (select_events c)) = Z.land c 15.
Proof.
  rewrite low_bits_sum. unfold mux_channel, replay, select_events, S0, S1, S2, S3.
  cbn [foldl apply_event].
  repeat (rewrite level_insert_eq || (rewrite level_insert_ne by lia)).
  done.
Qed.

(** ** The sweep *)

Lemma str_app_assoc (s1 s2 s3 : string) : (s1 +:+ s2) +:+ s3 = s1 +:+ (s2 +:+ s3).
Proof.
  induction s1 as [|a s1 IH]; [done|].
  change (String a ((s1 +:+ s2) +:+ s3) = String a (s1 +:+ (s2 +:+ s3))).
  by rewrite IH.
Qed.

Lemma str_app_nil_r (s : string) : s +:+ "" = s.
Proof.
  induction s as [|a s IH]; [done|].
  change (String a (s +:+ "") = String a s). by rewrite IH.
Qed.

Lemma sweep_body_run env n t i fsrData a w :
  let v := env_analogRead env (log w ++ select_events (to_byte i) ++ [EDelay 10]) MUX_SIG in
  sweep_body env n t i (fsrData, a) w =
  ((fsr_step n i fsrData v, active_step t a v),
   mkWorld (replay (pins w) (sweep_block i v)) (log w ++ sweep_block i v)).
Proof.
  cbv [sweep_body selectMuxChannel digitalWrite delay analogRead Serial_print
       bind ret emit input fst snd log pins].
  rewrite !bitRead_level by lia.
  rewrite <- !app_assoc. reflexivity.
Qed.

Lemma for_loop_sweep env n t count : forall i fsrData a w,
  exists vs, length vs = count /\
    for_loop count i (sweep_body env n t) (fsrData, a) w =
    ((fsr_fold n i fsrData vs, active_fold t a vs),
     mkWorld (replay (pins w) (sweep_trace i vs)) (log w ++ sweep_trace i vs)).
Proof.
  induction count as [|count IH]; intros i fsrData a w.
  - exists []. split; [done|]. simpl. rewrite app_nil_r. by destruct w.
  - cbn [for_loop]. unfold bind at 1. rewrite sweep_body_run.
    set (v := env_analogRead _ _ _).
    destruct (IH (i + 1) (fsr_step n i fsrData v) (active_step t a v)
                 (mkWorld (replay (pins w) (sweep_block i v)) (log w ++ sweep_block i v)))
      as (vs & Hlen & Hrun).
    exists (v :: vs). split; [simpl; by rewrite Hlen|].
    rewrite Hrun. cbn [fsr_fold active_fold sweep_trace pins log].
    by rewrite replay_app, app_assoc.
Qed.

Lemma analog_samples_app tr1 tr2 :
  analog_samples (tr1 ++ tr2) = analog_samples tr1 ++ analog_samples tr2.
Proof. apply omap_app. Qed.

Lemma analog_samples_block i v : analog_samples (sweep_block i v) = [v].
Proof. reflexivity. Qed.

Lemma analog_samples_sweep_trace vs : forall i, analog_samples (sweep_trace i vs) = vs.
Proof.
  induction vs as [|v vs IH]; intros i; [done|].
  cbn [sweep_trace]. by rewrite analog_samples_app, analog_samples_block, IH.
Qed.

Lemma sweep_trace_app vs1 : forall i vs2,
  sweep_trace i (vs1 ++ vs2) =
  sweep_trace i vs1 ++ sweep_trace (i + Z.of_nat (length vs1)) vs2.
Proof.
  induction vs1 as [|v vs1 IH]; intros i vs2.
  - simpl. by rewrite Z.add_0_r.
  - cbn [sweep_trace app length]. rewrite IH, <- app_assoc.
    do 3 f_equal. lia.
Qed.

(** The count never wraps while it fits an [int]. *)
Lemma active_fold_count t vs : forall a,
  0 <= a -> a + Z.of_nat (length vs) <= INT_MAX ->
  active_fold t a vs = a + count_above t vs.
Proof.
  unfold count_above, INT_MAX.
  induction vs as [|v vs IH]; intros a Ha Hmax; simpl in *; [lia|].
  unfold active_step. rewrite filter_cons.
  destruct (Z.gtb_spec v t) as [Hgt|Hle].
  - rewrite decide_True by lia.
    assert (wrap_int (a + 1) = a + 1) as ->.
    { unfold wrap_int. rewrite Z.mod_small; lia. }
    rewrite IH by lia. simpl. lia.
  - rewrite decide_False by lia. rewrite IH by lia. lia.
Qed.

Lemma concat_fields_cons (x : string) (xs : list string) :
  String.concat "&" (x :: xs) =
  match xs with [] => x | _ => x +:+ "&" +:+ String.concat "&" xs end.
Proof. by destruct xs. Qed.

Lemma fsr_fold_query n vs : forall i fsrData,
  i + Z.of_nat (length vs) = n ->
  fsr_fold n i fsrData vs = fsrData +:+ String.concat "&" (fsr_fields i vs).
Proof.
  induction vs as [|v vs IH]; intros i fsrData Hn.
  - simpl. by rewrite str_app_nil_r.
  - cbn [fsr_fold fsr_fields]. rewrite IH by (simpl in Hn; lia).
    rewrite concat_fields_cons. unfold fsr_step.
    destruct vs as [|v' vs].
    + simpl in Hn. destruct (Z.ltb_spec i (n - 1)); [lia|].
      cbn [fsr_fields]. change (String.concat "&" []) with "".
      by rewrite str_app_nil_r.
    + simpl in Hn. destruct (Z.ltb_spec i (n - 1)); [|lia].
      by rewrite !str_app_assoc.
Qed.

Lemma sweep_run env n t w :
  exists vs, length vs = Z.to_nat n /\
    sweep env n t w =
    ((fsr_fold n 0 "" vs, active_fold t 0 vs),
     mkWorld (replay (pins w) (sweep_trace 0 vs)) (log w ++ sweep_trace 0 vs)).
Proof. apply for_loop_sweep. Qed.

(** What the sweep returns and logs, in terms of the samples [vs] it took. *)
Lemma sweep_facts env n t w :
  exists vs, length vs = Z.to_nat n /\
    emitted (sweep env n t) w = sweep_trace 0 vs /\
    analog_samples (emitted (sweep env n t) w) = vs /\
    eval (sweep env n t) w = (fsr_fold n 0 "" vs, active_fold t 0 vs) /\
    run_adds (sweep env n t) w (sweep_trace 0 vs).
Proof.
  destruct (sweep_run env n t w) as (vs & Hlen & Hrun).
  assert (Hadds : run_adds (sweep env n t) w (sweep_trace 0 vs)).
  { unfold run_adds, exec. by rewrite Hrun. }
  exists vs. split; [done|].
  rewrite (run_adds_emitted _ _ _ Hadds), analog_samples_sweep_trace.
  repeat split; try done; try apply Hadds.
  unfold eval. by rewrite Hrun.
Qed.

Lemma sweep_trace_at vs i v :
  vs !! i = Some v ->
  sweep_trace 0 vs =
  sweep_trace 0 (take i vs) ++ sweep_block (Z.of_nat i) v
    ++ sweep_trace (Z.of_nat i + 1) (drop (S i) vs).
Proof.
  intros Hv. rewrite <- (take_drop_middle vs i v Hv) at 1.
  rewrite sweep_trace_app. cbn [sweep_trace].
  rewrite length_take_le by (apply Nat.lt_le_incl; by eapply lookup_lt_Some).
  by rewrite Z.add_0_l.
Qed.

Lemma replay_no_write p tr :
  Forall (fun e => forall pin l, e <> EDigitalWrite pin l) tr -> replay p tr = p.
Proof.
  induction tr as [|e tr IH] using rev_ind; [done|].
  rewrite Forall_app, Forall_singleton. intros [Htr He].
  rewrite replay_snoc, IH by done.
  destruct e; try done. exfalso. by eapply He.
Qed.

Lemma low_nibble_of_channel i : 0 <= i < 16 -> Z.land (to_byte i) 15 = i.
Proof.
  intros Hi. unfold to_byte. rewrite (Z.mod_small i 256) by lia.
  replace 15 with (Z.ones 4) by reflexivity.
  rewrite Z.land_ones by lia. apply Z.mod_small. change (2 ^ 4) with 16. lia.
Qed.

(** ** The acquisition *)

Lemma acquire_run env w :
  exists vs a g temp h t,
    length vs = 12%nat /\
    let ht := checked_dht h t in
    let pd := postData_of env (fsr_fold 12 0 "" vs) (active_fold PRESSURE_THRESHOLD 0 vs)
                a g temp (fst ht) (snd ht) in
    let tr := acquire_trace vs a g temp h t pd in
    acquire env w
    = ((pd, active_fold PRESSURE_THRESHOLD 0 vs),
       mkWorld (replay (pins w) tr) (log w ++ tr)).
Proof.
  destruct (sweep_run env 12 PRESSURE_THRESHOLD w) as (vs & Hlen & Hrun).
  unfold acquire. unfold bind at 1. rewrite Hrun.
  cbv [bind Serial_println mpu_getEvent dht_readHumidity dht_readTemperature
       input emit ret fst snd log pins apply_event].
  match goal with |- context [env_mpu_getEvent env ?l] =>
    destruct (env_mpu_getEvent env l) as [[a g] temp] end.
  match goal with |- context [env_dht_readHumidity env ?l] =>
    generalize (env_dht_readHumidity env l); intros h end.
  match goal with |- context [env_dht_readTemperature env ?l] =>
    generalize (env_dht_readTemperature env l); intros t end.
  exists vs, a, g, temp, h, t. split; [done|].
  unfold dht_check, checked_dht, acquire_trace.
  destruct (isnan h || isnan t);
    cbv [bind Serial_println emit ret fst snd log pins apply_event];
    rewrite <- !app_assoc; cbn [app];
    rewrite !replay_app; reflexivity.
Qed.

(** ** What a run may emit *)

Lemma emits_ret {A} P (a : A) : emits P (ret a).
Proof. intros w. exists []. split; [apply run_adds_ret | constructor]. Qed.

Lemma emits_emit (P : Event -> Prop) e : P e -> emits P (emit e).
Proof. intros He w. exists [e]. split; [apply run_adds_emit | by constructor]. Qed.

Lemma emits_input {A} (P : Event -> Prop) (ask : list Event -> A) ev :
  (forall a, P (ev a)) -> emits P (input ask ev).
Proof.
  intros He w. exists [ev (ask (log w))].
  split; [apply run_adds_input | by constructor].
Qed.

Lemma emits_digitalRead P pin : emits P (digitalRead pin).
Proof. intros w. exists []. split; [|constructor]. split; simpl; by rewrite ?app_nil_r. Qed.

Lemma emits_bind {A B} P (m : M A) (k : A -> M B) :
  emits P m -> (forall a, emits P (k a)) -> emits P (bind m k).
Proof.
  intros Hm Hk w.
  destruct (Hm w) as (tr1 & H1 & F1).
  destruct (Hk (eval m w) (exec m w)) as (tr2 & H2 & F2).
  exists (tr1 ++ tr2). split; [by apply run_adds_bind | by apply Forall_app].
Qed.

Ltac emits_step :=
  first
    [ apply emits_ret
    | apply emits_digitalRead
    | apply emits_emit; cbn; try done; unfold GREEN_LED, RED_LED, S0, S1, S2, S3, BUILTIN_LED; lia
    | apply emits_input; intros; exact I
    | apply emits_bind; [|intros ?]
    | match goal with |- emits _ (if ?c then _ else _) => destruct c end
    | match goal with |- emits _ (match ?c with _ => _ end) => destruct c end ].

Ltac emits_auto := repeat emits_step.

Lemma emits_wifi_wait env remaining : emits led_free (wifi_wait env remaining).
Proof.
  induction remaining as [|r IH]; cbn [wifi_wait];
    unfold WiFi_status, digitalWrite, delay, Serial_print; emits_auto.
  apply IH.
Qed.

Lemma emits_connectToWiFi env : emits led_free (connectToWiFi env).
Proof.
  unfold connectToWiFi, Serial_println, Serial_print, pinMode, WiFi_status,
    WiFi_localIP, digitalWrite.
  apply emits_bind; [emits_auto|intros _].
  apply emits_bind; [emits_auto|intros _].
  apply emits_bind; [emits_auto|intros _].
  apply emits_bind; [apply emits_wifi_wait|intros _].
  emits_auto.
Qed.

Lemma emits_sendDataToGoogleSheets env data :
  emits led_free (sendDataToGoogleSheets env data).
Proof.
  unfold sendDataToGoogleSheets.
  apply emits_bind; [unfold WiFi_status; emits_auto|intros st].
  destruct (st =? WL_CONNECTED).
  - unfold Serial_println, Serial_print, http_GET, http_getString. emits_auto.
  - apply emits_bind; [unfold Serial_println; emits_auto|intros _].
    apply emits_connectToWiFi.
Qed.

Lemma led_free_sweep_trace vs : forall i, Forall led_free (sweep_trace i vs).
Proof.
  induction vs as [|v vs IH]; intros i; cbn [sweep_trace]; [constructor|].
  apply Forall_app. split; [|apply IH].
  unfold sweep_block, select_events. repeat constructor; cbn; done.
Qed.

Lemma led_free_acquire_trace vs a g temp h t pd :
  Forall led_free (acquire_trace vs a g temp h t pd).
Proof.
  unfold acquire_trace. rewrite !Forall_app.
  split; [apply led_free_sweep_trace|].
  split; [by repeat constructor|].
  split; [destruct (isnan h || isnan t)|]; by repeat constructor.
Qed.

Lemma emits_acquire env : emits led_free (acquire env).
Proof.
  intros w. destruct (acquire_run env w) as (vs & a & g & temp & h & t & _ & Hrun).
  cbv zeta in Hrun. eexists. split.
  - unfold run_adds, exec. rewrite Hrun. cbn [snd log pins]. split; reflexivity.
  - apply led_free_acquire_trace.
Qed.

(** ** The indicator LEDs *)

Lemma replay_led_free p tr :
  Forall led_free tr ->
  level (replay p tr) GREEN_LED = level p GREEN_LED
  /\ level (replay p tr) RED_LED = level p RED_LED.
Proof.
  induction tr as [|e tr IH] using rev_ind; [done|].
  rewrite Forall_app, Forall_singleton. intros [Htr He].
  rewrite replay_snoc. destruct (IH Htr) as [IHg IHr].
  destruct e; try done. destruct He as [Hg Hr]. cbn [apply_event].
  by rewrite !level_insert_ne.
Qed.

Lemma leds_exclusive_led_free p tr :
  Forall led_free tr -> leds_exclusive p -> leds_exclusive (replay p tr).
Proof.
  intros Htr. unfold leds_exclusive.
  by destruct (replay_led_free p tr Htr) as [-> ->].
Qed.

Lemma leds_exclusive_update p g :
  leds_exclusive (replay p [EDigitalWrite GREEN_LED g; EDigitalWrite RED_LED (negb g)]).
Proof.
  unfold leds_exclusive, replay. cbn [foldl apply_event].
  rewrite level_insert_eq, level_insert_ne, level_insert_eq by done.
  by destruct g.
Qed.

Lemma prefix_of_app_cases {A} (l1 : list A) : forall pre l2,
  pre `prefix_of` l1 ++ l2 ->
  pre `prefix_of` l1 \/ exists pre', pre = l1 ++ pre' /\ pre' `prefix_of` l2.
Proof.
  induction l1 as [|x l1 IH]; intros pre l2 Hpre.
  - right. by exists pre.
  - destruct pre as [|y pre]; [left; apply prefix_nil|].
    cbn [app] in Hpre.
    pose proof (prefix_cons_inv_1 _ _ _ _ Hpre) as ->.
    apply prefix_cons_inv_2 in Hpre.
    destruct (IH _ _ Hpre) as [Hl|(pre' & -> & Hr)].
    + left. by apply prefix_cons.
    + right. by exists pre'.
Qed.

(** One round changes the LEDs only in its last three events. *)
Lemma loop_run env w :
  exists body g,
    run_adds (loop env) w
      (body ++ [EDigitalWrite GREEN_LED g; EDigitalWrite RED_LED (negb g); EDelay 500])
    /\ Forall led_free body.
Proof.
  destruct (emits_acquire env w) as (tr1 & H1 & F1).
  unfold loop.
  destruct (eval (acquire env) w) as [postData activeSensors] eqn:Ev.
  destruct (emits_sendDataToGoogleSheets env postData (exec (acquire env) w))
    as (tr2 & H2 & F2).
  exists (tr1 ++ tr2), (activeSensors >? 4). split; [|apply Forall_app; split; assumption].
  rewrite <- app_assoc.
  apply run_adds_bind; [done|]. rewrite Ev.
  apply run_adds_bind; [done|].
  unfold update_leds, digitalWrite, delay, green_value, red_value.
  eapply run_adds_eq; [run_steps|].
  by destruct (activeSensors >? 4).
Qed.

Lemma led_disciplined_round p body g :
  leds_exclusive p -> Forall led_free body ->
  led_disciplined p
    (body ++ [EDigitalWrite GREEN_LED g; EDigitalWrite RED_LED (negb g); EDelay 500]).
Proof.
  intros Hp Hbody.
  assert (Hend : leds_exclusive (replay p (body ++
            [EDigitalWrite GREEN_LED g; EDigitalWrite RED_LED (negb g)]))).
  { rewrite replay_app. apply leds_exclusive_update. }
  split.
  - change [EDigitalWrite GREEN_LED g; EDigitalWrite RED_LED (negb g); EDelay 500]
      with ([EDigitalWrite GREEN_LED g; EDigitalWrite RED_LED (negb g)] ++ [EDelay 500]).
    by rewrite app_assoc, replay_snoc.
  - intros pre Hpre.
    destruct (prefix_of_app_cases _ _ _ Hpre) as [[k Hk]|(pre' & -> & Hpre')].
    + left. apply leds_exclusive_led_free; [|done].
      rewrite Hk in Hbody. by apply Forall_app in Hbody as [? _].
    + destruct pre' as [|e1 [|e2 [|e3 [|e4 pre']]]].
      * left. rewrite app_nil_r. by apply leds_exclusive_led_free.
      * right. pose proof (prefix_cons_inv_1 _ _ _ _ Hpre') as ->. by exists body, g.
      * left. pose proof (prefix_cons_inv_1 _ _ _ _ Hpre') as ->.
        apply prefix_cons_inv_2 in Hpre'.
        by pose proof (prefix_cons_inv_1 _ _ _ _ Hpre') as ->.
      * left. pose proof (prefix_cons_inv_1 _ _ _ _ Hpre') as ->.
        apply prefix_cons_inv_2 in Hpre'.
        pose proof (prefix_cons_inv_1 _ _ _ _ Hpre') as ->.
        apply prefix_cons_inv_2 in Hpre'.
        pose proof (prefix_cons_inv_1 _ _ _ _ Hpre') as ->.
        change [EDigitalWrite GREEN_LED g; EDigitalWrite RED_LED (negb g); EDelay 500]
          with ([EDigitalWrite GREEN_LED g; EDigitalWrite RED_LED (negb g)] ++ [EDelay 500]).
        by rewrite app_assoc, replay_snoc.
      * apply prefix_length in Hpre'. simpl in Hpre'. lia.
Qed.

Lemma ends_with_green_write_app tr1 tr2 :
  ends_with_green_write tr2 -> ends_with_green_write (tr1 ++ tr2).
Proof. intros (tr' & g & ->). exists (tr1 ++ tr'), g. by rewrite app_assoc. Qed.

Lemma led_disciplined_app p tr1 tr2 :
  led_disciplined p tr1 -> led_disciplined (replay p tr1) tr2 ->
  led_disciplined p (tr1 ++ tr2).
Proof.
  intros [E1 P1] [E2 P2]. split; [by rewrite replay_app|].
  intros pre Hpre.
  destruct (prefix_of_app_cases _ _ _ Hpre) as [H1|(pre' & -> & H2)]; [by apply P1|].
  rewrite replay_app.
  destruct (P2 _ H2) as [?|?]; [by left | right; by apply ends_with_green_write_app].
Qed.

Lemma loops_run env n : forall w,
  leds_exclusive (pins w) ->
  exists tr, run_adds (loops env n) w tr /\ led_disciplined (pins w) tr.
Proof.
  induction n as [|n IH]; intros w Hw; cbn [loops].
  - exists []. split; [apply run_adds_ret|]. split; [done|].
    intros pre Hpre. apply prefix_nil_inv in Hpre as ->. by left.
  - destruct (loop_run env w) as (body & g & Hrun & Hbody).
    pose proof (led_disciplined_round _ _ g Hw Hbody) as Hround.
    destruct (IH (exec (loop env) w)) as (tr & Hrest & Htr).
    { rewrite (proj2 Hrun). apply Hround. }
    eexists. split; [by apply run_adds_bind|].
    apply led_disciplined_app; [done|]. by rewrite <- (proj2 Hrun).
Qed.

(** [setup] ends with red high and green low (lines 110-111); nothing after
    these two writes touches either LED. *)
Lemma setup_run env w :
  exists before after,
    run_adds (setup env) w
      (before ++ [EDigitalWrite RED_LED true; EDigitalWrite GREEN_LED false] ++ after)
    /\ Forall led_free after.
Proof.
  unfold setup.
  match goal with |- context [bind (digitalWrite GREEN_LED LOW) (fun _ => ?k)] =>
    set (rest := k) end.
  assert (Hrest : emits led_free rest).
  { subst rest. apply emits_bind; [apply emits_connectToWiFi|intros _].
    unfold mpu_begin, Serial_println, delay. emits_auto. }
  set (before := [ESerialBegin 115200; EPinMode S0 OUTPUT; EPinMode S1 OUTPUT;
                  EPinMode S2 OUTPUT; EPinMode S3 OUTPUT; EPinMode MUX_SIG INPUT;
                  EPinMode GREEN_LED OUTPUT; EPinMode RED_LED OUTPUT]).
  set (leds := [EDigitalWrite RED_LED true; EDigitalWrite GREEN_LED false]).
  destruct (Hrest (foldl (fun w e => exec (emit e) w) w (before ++ leds)))
    as (after & Hafter & Hfree).
  exists before, after. split; [|exact Hfree].
  unfold pinMode, digitalWrite.
  eapply run_adds_eq.
  - do 10 (eapply run_adds_bind; [apply run_adds_emit|]). exact Hafter.
  - reflexivity.
Qed.

(** ** The upload *)

Lemma emits_anything_send env data :
  emits (fun _ => True) (sendDataToGoogleSheets env data).
Proof.
  intros w. destruct (emits_sendDataToGoogleSheets env data w) as (tr & Hrun & _).
  exists tr. split; [done|]. by apply Forall_forall.
Qed.

(** With WiFi connected, the upload opens the script URL followed by "?" and
    the data string. *)
Lemma send_connected env data w :
  env_wifi_status env (log w) = WL_CONNECTED ->
  exists rest,
    emitted (sendDataToGoogleSheets env data) w
    = [EWiFiStatus WL_CONNECTED;
       ESerial (("Sending to URL: " +:+ googleScriptUrl +:+ "?" +:+ data) +:+ CRLF);
       EHttpBegin (googleScriptUrl +:+ "?" +:+ data)] ++ rest.
Proof.
  intros Hst. unfold sendDataToGoogleSheets.
  set (k := fun st : Z => if st =? WL_CONNECTED then _ else _).
  pose proof (run_adds_input (env_wifi_status env) EWiFiStatus w) as H0.
  rewrite Hst in H0.
  assert (Hk : exists rest, run_adds (k WL_CONNECTED) (exec (WiFi_status env) w)
            ([ESerial (("Sending to URL: " +:+ googleScriptUrl +:+ "?" +:+ data) +:+ CRLF);
              EHttpBegin (googleScriptUrl +:+ "?" +:+ data)] ++ rest)).
  { subst k. cbn beta. change (WL_CONNECTED =? WL_CONNECTED) with true. cbn iota.
    unfold Serial_println at 1.
    match goal with |- context [bind (emit (EHttpBegin _)) (fun _ => ?m)] =>
      assert (Hm : emits (fun _ => True) m) end.
    { unfold http_GET, http_getString, Serial_println, Serial_print.
      repeat first [ apply emits_ret | apply emits_emit; exact I
                   | apply emits_input; intros; exact I
                   | apply emits_bind; [|intros ?]
                   | match goal with |- emits _ (if ?c then _ else _) => destruct c end ]. }
    match type of Hm with emits _ ?m =>
      destruct (Hm (exec (emit (EHttpBegin (googleScriptUrl +:+ "?" +:+ data)))
                 (exec (emit (ESerial (("Sending to URL: " +:+ googleScriptUrl +:+ "?" +:+ data)
                                       +:+ CRLF)))
                   (exec (WiFi_status env) w)))) as (rest & Hrest & _) end.
    exists rest.
    eapply run_adds_eq.
    - eapply run_adds_bind; [apply run_adds_emit|].
      eapply run_adds_bind; [apply run_adds_emit|]. exact Hrest.
    - reflexivity. }
  destruct Hk as (rest & Hrest). exists rest.
  apply run_adds_emitted.
  eapply run_adds_eq.
  - eapply run_adds_bind; [exact H0|].
    unfold WiFi_status at 1, eval, input. cbn [fst]. rewrite Hst. exact Hrest.
  - reflexivity.
Qed.

Lemma loop_emitted env w :
  let pd := fst (eval (acquire env) w) in
  let a := snd (eval (acquire env) w) in
  emitted (loop env) w
  = emitted (acquire env) w
    ++ emitted (sendDataToGoogleSheets env pd) (exec (acquire env) w)
    ++ [EDigitalWrite GREEN_LED (a >? 4); EDigitalWrite RED_LED (negb (a >? 4));
        EDelay 500].
Proof.
  cbv zeta.
  destruct (emits_acquire env w) as (tr1 & H1 & _).
  destruct (eval (acquire env) w) as [postData activeSensors] eqn:Ev. cbn [fst snd].
  destruct (emits_sendDataToGoogleSheets env postData (exec (acquire env) w))
    as (tr2 & H2 & _).
  rewrite (run_adds_emitted _ _ _ H1), (run_adds_emitted _ _ _ H2).
  apply run_adds_emitted. unfold loop.
  apply run_adds_bind; [exact H1|]. rewrite Ev.
  apply run_adds_bind; [exact H2|].
  unfold update_leds, digitalWrite, delay, green_value, red_value.
  eapply run_adds_eq; [run_steps|].
  destruct (activeSensors >? 4); reflexivity.
Qed.

Lemma loop_pins env w : pins (exec (loop env) w) = replay (pins w) (emitted (loop env) w).
Proof.
  destruct (loop_run env w) as (body & g & Hrun & _).
  rewrite (run_adds_emitted _ _ _ Hrun). apply Hrun.
Qed.

(** The acquisition of [loop] is a sweep over twelve channels against
    PRESSURE_THRESHOLD: its samples and its count are those of the sweep. *)
Lemma acquire_count env w :
  exists vs, length vs = 12%nat
    /\ analog_samples (emitted (acquire env) w) = vs
    /\ snd (eval (acquire env) w) = active_fold PRESSURE_THRESHOLD 0 vs.
Proof.
  destruct (acquire_run env w) as (vs & a & g & temp & h & t & Hlen & Hrun).
  cbv zeta in Hrun. exists vs. split; [exact Hlen|].
  set (pd := postData_of env _ _ a g temp _ _) in Hrun.
  assert (Hadds : run_adds (acquire env) w (acquire_trace vs a g temp h t pd)).
  { unfold run_adds, exec. rewrite Hrun. cbn [snd log pins]. split; reflexivity. }
  split.
  - rewrite (run_adds_emitted _ _ _ Hadds). clear Hrun Hadds.
    unfold acquire_trace. rewrite !analog_samples_app, analog_samples_sweep_trace.
    destruct (isnan h || isnan t); cbn; by rewrite app_nil_r.
  - unfold eval. rewrite Hrun. reflexivity.
Qed.

Lemma dht_reads_sweep_trace vs : forall i,
  humidity_reads (sweep_trace i vs) = [] /\ temperature_reads (sweep_trace i vs) = [].
Proof.
  induction vs as [|v vs IH]; intros i; [done|].
  cbn [sweep_trace]. unfold humidity_reads, temperature_reads in *.
  rewrite !omap_app. by destruct (IH (i + 1)) as [-> ->].
Qed.

(** * The claims *)

(** C1.  For every sweep, whatever happened before it, the active count it
    produces is the number of its own samples that are strictly greater than
    the pressure threshold.  The count starts from zero each time: a second
    sweep run right after a first one again returns the count of its own
    samples only.  So it is for the sweep of [loop], over twelve channels
    against PRESSURE_THRESHOLD. *)
Theorem active_count_is_fresh env n t w :
  0 <= n <= INT_MAX ->
  snd (eval (sweep env n t) w)
    = count_above t (analog_samples (emitted (sweep env n t) w))
  /\ snd (eval (sweep env n t ;; sweep env n t) w)
    = count_above t (analog_samples (emitted (sweep env n t) (exec (sweep env n t) w)))
  /\ snd (eval (acquire env) w)
    = count_above PRESSURE_THRESHOLD (analog_samples (emitted (acquire env) w)).
Proof.
  intros Hn.
  assert (Hone : forall w', snd (eval (sweep env n t) w')
            = count_above t (analog_samples (emitted (sweep env n t) w'))).
  { intros w'. destruct (sweep_facts env n t w') as (vs & Hlen & _ & Hs & Hev & _).
    rewrite Hs, Hev. cbn [snd]. rewrite active_fold_count; lia. }
  split; [apply Hone|]. split; [rewrite eval_bind; apply Hone|].
  destruct (acquire_count env w) as (vs & Hlen & -> & ->).
  rewrite active_fold_count; unfold INT_MAX; lia.
Qed.

(** The specification's example: samples 50, 150, 99, 101 against threshold
    100 give an active count of 2. *)
Lemma active_count_is_fresh_witness :
  0 <= 4 <= INT_MAX /\
  analog_samples
    (emitted (sweep (scripted [50; 150; 99; 101] 3 S754_nan S754_nan) 4 100) power_on)
    = [50; 150; 99; 101] /\
  snd (eval (sweep (scripted [50; 150; 99; 101] 3 S754_nan S754_nan) 4 100) power_on) = 2.
Proof.
  split; [unfold INT_MAX; lia|]. split; [vm_compute; reflexivity|].
  rewrite (proj1 (active_count_is_fresh
                    (scripted [50; 150; 99; 101] 3 S754_nan S754_nan) 4 100 power_on
                    ltac:(unfold INT_MAX; lia))).
  vm_compute. reflexivity.
Defined.

(** C3.  A sweep over [n >= 0] channels takes exactly [n] samples, and the
    data string it returns is the serialisation of exactly these [n] samples;
    over zero channels it does nothing and returns the empty string with an
    active count of 0. *)
Theorem sweep_length env n t w :
  0 <= n ->
  Z.of_nat (length (analog_samples (emitted (sweep env n t) w))) = n
  /\ fst (eval (sweep env n t) w) = fsr_query (analog_samples (emitted (sweep env n t) w))
  /\ Z.of_nat (length (fsr_fields 0 (analog_samples (emitted (sweep env n t) w)))) = n
  /\ emitted (sweep env 0 t) w = []
  /\ eval (sweep env 0 t) w = ("", 0).
Proof.
  intros Hn. destruct (sweep_facts env n t w) as (vs & Hlen & _ & Hs & Hev & _).
  rewrite Hs, Hev. cbn [fst].
  assert (Hfields : forall (l : list Z) i, length (fsr_fields i l) = length l).
  { induction l as [|v l IH]; intros i; [done|]. simpl. by rewrite IH. }
  rewrite Hfields, Hlen.
  repeat split; try lia.
  - rewrite fsr_fold_query by lia. reflexivity.
  - unfold emitted, exec. simpl. by rewrite drop_all.
Qed.

Lemma sweep_length_witness :
  0 <= 12 /\
  Z.of_nat (length (analog_samples (emitted
     (sweep (scripted [50; 150; 99; 101] 3 S754_nan S754_nan) 12 100) power_on))) = 12.
Proof.
  split; [lia|].
  apply (sweep_length (scripted [50; 150; 99; 101] 3 S754_nan S754_nan) 12 100 power_on).
  lia.
Defined.

(** C4.  The sweep takes one sample per channel, in ascending channel
    order, and returns them in that order: the string it returns is the
    "&"-join of one field per sample, and for every index [i] in range, sample
    number [i] of the run (counting from 0) is read while the select lines
    address channel [i mod 16], which is channel [i] for each of the sixteen
    channels the four lines can address; that sample is entry [i] of the
    sampled sequence, and field [i] of the returned string carries it under
    the name fsr[i]. *)
Theorem sweep_in_channel_order env n t w i :
  0 <= i < n ->
  Z.of_nat (length (analog_samples (emitted (sweep env n t) w))) = n /\
  fst (eval (sweep env n t) w)
    = String.concat "&" (fsr_fields 0 (analog_samples (emitted (sweep env n t) w))) /\
  Z.of_nat (length (fsr_fields 0 (analog_samples (emitted (sweep env n t) w)))) = n /\
  exists pre v post,
    fsr_fields 0 (analog_samples (emitted (sweep env n t) w)) !! Z.to_nat i
      = Some ("fsr" +:+ String_int i +:+ "=" +:+ String_int v)
    /\ emitted (sweep env n t) w = pre ++ EAnalogRead MUX_SIG v :: post
    /\ length (analog_samples pre) = Z.to_nat i
    /\ mux_channel (replay (pins w) pre) = i mod 16
    /\ (i < 16 -> mux_channel (replay (pins w) pre) = i)
    /\ analog_samples (emitted (sweep env n t) w) !! Z.to_nat i = Some v.
Proof.
  intros Hi.
  destruct (sweep_facts env n t w) as (vs & Hlen & Hem & Hs & Hev & _).
  rewrite Hs, Hem, Hev. cbn [fst]. split; [lia|].
  destruct (lookup_lt_is_Some_2 vs (Z.to_nat i)) as [v Hv]; [lia|].
  assert (Hfields : forall (l : list Z) j, length (fsr_fields j l) = length l).
  { induction l as [|x l IH]; intros j; [done|]. simpl. by rewrite IH. }
  assert (Hgen : forall (l : list Z) k j x, l !! k = Some x ->
            fsr_fields j l !! k
            = Some ("fsr" +:+ String_int (j + Z.of_nat k) +:+ "=" +:+ String_int x)).
  { induction l as [|x l IH]; intros k j x' Hk; [done|].
    destruct k as [|k]; simpl in *.
    - inversion Hk; subst. by rewrite Z.add_0_r.
    - rewrite (IH _ _ _ Hk). do 4 f_equal. lia. }
  assert (Hmux : mux_channel
            (replay (pins w)
               (sweep_trace 0 (take (Z.to_nat i) vs)
                ++ select_events (to_byte i) ++ [EDelay 10])) = i mod 16).
  { rewrite !replay_app.
    rewrite (replay_no_write _ [EDelay 10]) by (by repeat constructor).
    rewrite mux_channel_select. unfold to_byte.
    replace 15 with (Z.ones 4) by reflexivity.
    rewrite Z.land_ones by lia. change (2 ^ 4) with 16.
    Z.div_mod_to_equations. lia. }
  split; [rewrite fsr_fold_query by lia; reflexivity|].
  split; [rewrite Hfields; lia|].
  exists (sweep_trace 0 (take (Z.to_nat i) vs) ++ select_events (to_byte i) ++ [EDelay 10]),
    v, ([ESerial "FSR"; ESerial (String_int i); ESerial ": ";
         ESerial (String_int v); ESerial TAB]
        ++ sweep_trace (i + 1) (drop (S (Z.to_nat i)) vs)).
  split; [|split; [|split; [|split; [|split]]]].
  - rewrite (Hgen _ _ _ _ Hv). do 4 f_equal. lia.
  - rewrite (sweep_trace_at vs _ v Hv), Z2Nat.id by lia.
    unfold sweep_block. by rewrite <- !app_assoc.
  - rewrite analog_samples_app, analog_samples_sweep_trace.
    cbn. rewrite app_nil_r, length_take_le; lia.
  - exact Hmux.
  - intros H16. rewrite Hmux. apply Z.mod_small. lia.
  - exact Hv.
Qed.

(** Channel 9 of the twelve the sketch sweeps: the tenth field of the
    returned string is its sample, read on channel 9. *)
Lemma sweep_in_channel_order_witness :
  0 <= 9 < 12 /\
  fst (eval (sweep (scripted [50; 150; 99; 101] 3 S754_nan S754_nan) 12 100) power_on)
    = String.concat "&"
        (fsr_fields 0
           (analog_samples
              (emitted (sweep (scripted [50; 150; 99; 101] 3 S754_nan S754_nan) 12 100)
                 power_on))) /\
  exists pre v post,
    fsr_fields 0
      (analog_samples
         (emitted (sweep (scripted [50; 150; 99; 101] 3 S754_nan S754_nan) 12 100)
            power_on)) !! 9%nat
      = Some ("fsr" +:+ String_int 9 +:+ "=" +:+ String_int v)
    /\ emitted (sweep (scripted [50; 150; 99; 101] 3 S754_nan S754_nan) 12 100) power_on
      = pre ++ EAnalogRead MUX_SIG v :: post
    /\ mux_channel (replay (pins power_on) pre) = 9.
Proof.
  split; [lia|].
  destruct (sweep_in_channel_order
              (scripted [50; 150; 99; 101] 3 S754_nan S754_nan) 12 100 power_on 9
              ltac:(lia)) as (_ & H0 & _ & pre & v & post & H3 & H4 & _ & _ & H7 & _).
  split; [exact H0|].
  exists pre, v, post.
  split; [exact H3|]. split; [exact H4|]. apply H7. lia.
Defined.

(** C8.  In a sweep, the sample number [i] comes right after the four
    select-line writes for channel [i] and the 10 ms settle delay, in that
    order and with nothing in between: the selection is complete and the
    delay is over before the read, and no other selection separates a
    selection from its sample. *)
Theorem select_settle_then_sample env n t w i :
  0 <= i < n ->
  exists pre v post,
    emitted (sweep env n t) w
      = pre ++ select_events (to_byte i) ++ [EDelay 10; EAnalogRead MUX_SIG v] ++ post
    /\ length (analog_samples pre) = Z.to_nat i
    /\ analog_samples (emitted (sweep env n t) w) !! Z.to_nat i = Some v.
Proof.
  intros Hi. destruct (sweep_facts env n t w) as (vs & Hlen & Hem & Hs & _ & _).
  rewrite Hs, Hem.
  destruct (lookup_lt_is_Some_2 vs (Z.to_nat i)) as [v Hv]; [lia|].
  exists (sweep_trace 0 (take (Z.to_nat i) vs)), v,
    ([ESerial "FSR"; ESerial (String_int i); ESerial ": ";
      ESerial (String_int v); ESerial TAB]
     ++ sweep_trace (i + 1) (drop (S (Z.to_nat i)) vs)).
  repeat split; [|rewrite analog_samples_sweep_trace, length_take_le; lia|done].
  rewrite (sweep_trace_at vs _ v Hv), Z2Nat.id by lia.
  unfold sweep_block. by rewrite <- !app_assoc.
Qed.

Lemma select_settle_then_sample_witness :
  0 <= 3 < 12 /\
  exists pre v post,
    emitted (sweep (scripted [50; 150; 99; 101] 3 S754_nan S754_nan) 12 100) power_on
      = pre ++ select_events (to_byte 3) ++ [EDelay 10; EAnalogRead MUX_SIG v] ++ post
    /\ length (analog_samples pre) = Z.to_nat 3
    /\ analog_samples
         (emitted (sweep (scripted [50; 150; 99; 101] 3 S754_nan S754_nan) 12 100) power_on)
         !! Z.to_nat 3 = Some v.
Proof.
  split; [lia|].
  apply (select_settle_then_sample
           (scripted [50; 150; 99; 101] 3 S754_nan S754_nan) 12 100 power_on 3).
  lia.
Defined.

(** C5.  For every channel value, [selectMuxChannel] does exactly four
    writes, one per select line, that put bit 0 of the channel on the first
    line and bit 3 on the fourth, so that the lines read as the low four bits
    of the channel; no other pin changes.  For channel 9 (binary 1001) the
    lines are 1, 0, 0, 1. *)
Theorem select_drives_low_nibble channel w :
  let w' := exec (selectMuxChannel channel) w in
  emitted (selectMuxChannel channel) w
    = [EDigitalWrite S0 (Z.testbit channel 0); EDigitalWrite S1 (Z.testbit channel 1);
       EDigitalWrite S2 (Z.testbit channel 2); EDigitalWrite S3 (Z.testbit channel 3)]
  /\ (level (pins w') S0 = Z.testbit channel 0 /\ level (pins w') S1 = Z.testbit channel 1
      /\ level (pins w') S2 = Z.testbit channel 2 /\ level (pins w') S3 = Z.testbit channel 3)
  /\ mux_channel (pins w') = Z.land channel 15
  /\ (forall pin, pin <> S0 -> pin <> S1 -> pin <> S2 -> pin <> S3 ->
        pins w' !! pin = pins w !! pin)
  /\ (let w9 := exec (selectMuxChannel 9) w in
      level (pins w9) S0 = true /\ level (pins w9) S1 = false
      /\ level (pins w9) S2 = false /\ level (pins w9) S3 = true).
Proof.
  assert (Hpins : forall c, pins (exec (selectMuxChannel c) w)
                            = replay (pins w) (select_events c))
    by (intros c; apply selectMuxChannel_run).
  assert (Hlev : forall c,
    level (replay (pins w) (select_events c)) S0 = Z.testbit c 0
    /\ level (replay (pins w) (select_events c)) S1 = Z.testbit c 1
    /\ level (replay (pins w) (select_events c)) S2 = Z.testbit c 2
    /\ level (replay (pins w) (select_events c)) S3 = Z.testbit c 3).
  { intros c. unfold replay, select_events, S0, S1, S2, S3. cbn [foldl apply_event].
    repeat split;
      repeat (rewrite level_insert_eq || (rewrite level_insert_ne by lia)); done. }
  cbv zeta. rewrite !Hpins.
  split; [exact (run_adds_emitted _ _ _ (selectMuxChannel_run channel w))|].
  split; [apply Hlev|]. split; [apply mux_channel_select|].
  split; [|apply (Hlev 9)].
  intros pin H0 H1 H2 H3. unfold replay, select_events. cbn [foldl apply_event].
  by rewrite !lookup_insert_ne.
Qed.

(** C9.  Selecting the same channel twice in a row leaves every pin as one
    selection does, and the second call does the same four writes as the
    first. *)
Theorem select_idempotent channel w :
  pins (exec (selectMuxChannel channel ;; selectMuxChannel channel) w)
    = pins (exec (selectMuxChannel channel) w)
  /\ emitted (selectMuxChannel channel) (exec (selectMuxChannel channel) w)
    = emitted (selectMuxChannel channel) w
  /\ emitted (selectMuxChannel channel ;; selectMuxChannel channel) w
    = emitted (selectMuxChannel channel) w ++ emitted (selectMuxChannel channel) w.
Proof.
  pose proof (selectMuxChannel_run channel w) as H1.
  pose proof (selectMuxChannel_run channel (exec (selectMuxChannel channel) w)) as H2.
  pose proof (run_adds_bind _ (fun _ => selectMuxChannel channel) _ _ _ H1 H2) as H12.
  rewrite (run_adds_emitted _ _ _ H1), (run_adds_emitted _ _ _ H2),
    (run_adds_emitted _ _ _ H12).
  repeat split.
  rewrite (proj2 H12), (proj2 H1).
  unfold replay, select_events, S0, S1, S2, S3. cbn [foldl apply_event app].
  apply map_eq. intros k. rewrite !lookup_insert.
  repeat case_decide; done || lia.
Qed.

(** C2.  The status put on the LEDs is ALERT exactly when the active count
    is strictly greater than the alert threshold, and NORMAL otherwise; it is
    the status the specification's [decide] names, and the one the pins show
    once lines 196-197 have run, in particular at the end of every round of
    [loop], where the count is that of the round and the threshold is 4.
    5 against 4 is ALERT, 4 against 4 and 0 against 4 are NORMAL. *)
Theorem decide_status_correct env activeCount alertThreshold w :
  (decide_status activeCount alertThreshold = Some ALERT <-> activeCount > alertThreshold)
  /\ (decide_status activeCount alertThreshold = Some NORMAL
      <-> ~ activeCount > alertThreshold)
  /\ decide_status activeCount alertThreshold
     = Some (decide_spec activeCount alertThreshold)
  /\ status_of_pins (pins (exec (update_leds activeCount alertThreshold) w))
     = decide_status activeCount alertThreshold
  /\ status_of_pins (pins (exec (loop env) w))
     = decide_status (snd (eval (acquire env) w)) 4
  /\ decide_status 5 4 = Some ALERT
  /\ decide_status 4 4 = Some NORMAL
  /\ decide_status 0 4 = Some NORMAL.
Proof.
  assert (Hloop : status_of_pins (pins (exec (loop env) w))
                  = decide_status (snd (eval (acquire env) w)) 4).
  { rewrite loop_pins. pose proof (loop_emitted env w) as He. cbv zeta in He.
    rewrite He, app_assoc, replay_app.
    generalize (replay (pins w) (emitted (acquire env) w
      ++ emitted (sendDataToGoogleSheets env (fst (eval (acquire env) w)))
           (exec (acquire env) w))).
    intros p. unfold status_of_pins, replay, decide_status, green_value, red_value.
    cbn [foldl apply_event].
    rewrite level_insert_eq, level_insert_ne, level_insert_eq by done.
    by destruct (snd (eval (acquire env) w) >? 4). }
  revert Hloop. generalize (status_of_pins (pins (exec (loop env) w))).
  generalize (snd (eval (acquire env) w)). intros a0 st Hloop.
  unfold decide_status, decide_spec, status_of_pins, update_leds, digitalWrite,
    green_value, red_value in *.
  cbv [exec bind emit snd pins apply_event].
  rewrite level_insert_eq, level_insert_ne, level_insert_eq by done.
  destruct (Z.gtb_spec activeCount alertThreshold) as [Hgt|Hle].
  - rewrite bool_decide_eq_true_2 by lia. simpl. repeat split; try done; lia.
  - rewrite bool_decide_eq_false_2 by lia. simpl. repeat split; try done; lia.
Qed.

(** C7.  With the alert threshold fixed, raising the active count never
    turns ALERT into NORMAL. *)
Theorem decide_status_monotone a a' k :
  a <= a' -> decide_status a k = Some ALERT -> decide_status a' k = Some ALERT.
Proof.
  unfold decide_status, green_value, red_value. intros Hle.
  destruct (Z.gtb_spec a k); [|done].
  destruct (Z.gtb_spec a' k); [done|lia].
Qed.

Lemma decide_status_monotone_witness :
  5 <= 9 /\ decide_status 5 4 = Some ALERT /\ decide_status 9 4 = Some ALERT.
Proof.
  split; [lia|]. split; [reflexivity|].
  apply (decide_status_monotone 5 9 4); [lia | reflexivity].
Defined.

(** C6 (as amended).  After [setup], and after any number of complete
    rounds of [loop], exactly one of the two indicator LEDs is high; and in
    every state the sketch goes through from the end of [setup] on, exactly
    one is high unless the last thing done is the write to the green LED of
    line 196, whose partner write to the red LED (line 197) has not run
    yet. *)
Theorem leds_exclusive_outside_update env w0 n :
  leds_exclusive (pins (exec (setup env) w0))
  /\ leds_exclusive (pins (exec (firmware env n) w0))
  /\ forall pre,
       pre `prefix_of` emitted (firmware env n) w0 ->
       (length (emitted (setup env) w0) <= length pre)%nat ->
       leds_exclusive (replay (pins w0) pre) \/ ends_with_green_write pre.
Proof.
  destruct (setup_run env w0) as (before & after & Hsetup & Hfree).
  set (ts := before ++ _ ++ after) in Hsetup.
  assert (Hs : leds_exclusive (replay (pins w0) ts)).
  { subst ts. rewrite app_assoc, replay_app.
    apply leds_exclusive_led_free; [done|].
    rewrite replay_app. generalize (replay (pins w0) before). intros p.
    unfold leds_exclusive, replay. cbn [foldl apply_event].
    by rewrite level_insert_eq, level_insert_ne, level_insert_eq. }
  assert (Hfw : exists tr, run_adds (firmware env n) w0 (ts ++ tr)
                           /\ led_disciplined (replay (pins w0) ts) tr).
  { unfold firmware. destruct (eval (setup env) w0) eqn:Ev.
    - destruct (loops_run env n (exec (setup env) w0)) as (tr & Hrun & Htr).
      { by rewrite (proj2 Hsetup). }
      exists tr. split.
      + apply run_adds_bind; [done|]. by rewrite Ev.
      + by rewrite <- (proj2 Hsetup).
    - exists []. split.
      + apply run_adds_bind; [done|]. rewrite Ev. apply run_adds_ret.
      + split; [done|]. intros pre Hpre. apply prefix_nil_inv in Hpre as ->. by left. }
  destruct Hfw as (tr & Hrun & Hend & Hpre).
  rewrite (run_adds_emitted _ _ _ Hsetup), (run_adds_emitted _ _ _ Hrun).
  rewrite (proj2 Hsetup), (proj2 Hrun), replay_app.
  split; [done|]. split; [done|].
  intros pre Hp Hlen.
  destruct (prefix_of_app_cases _ _ _ Hp) as [H1|(pre' & -> & H2)].
  - left. by rewrite (prefix_length_eq _ _ H1 Hlen).
  - rewrite replay_app. destruct (Hpre _ H2) as [?|?]; [by left|right].
    by apply ends_with_green_write_app.
Qed.

(** The state after line 197 of the first round, all sensors pressed. *)
Lemma leds_exclusive_outside_update_witness :
  let tr := emitted (firmware all_pressed 1) power_on in
  let pre := take (length tr - 1) tr in
  pre `prefix_of` tr
  /\ (length (emitted (setup all_pressed) power_on) <= length pre)%nat
  /\ (leds_exclusive (replay (pins power_on) pre) \/ ends_with_green_write pre).
Proof.
  cbv zeta.
  assert (Hpre : take (length (emitted (firmware all_pressed 1) power_on) - 1)
                   (emitted (firmware all_pressed 1) power_on)
                 `prefix_of` emitted (firmware all_pressed 1) power_on)
    by apply prefix_take.
  assert (Hlen : (length (emitted (setup all_pressed) power_on)
                  <= length (take (length (emitted (firmware all_pressed 1) power_on) - 1)
                               (emitted (firmware all_pressed 1) power_on)))%nat)
    by (vm_compute; lia).
  split; [exact Hpre|]. split; [exact Hlen|].
  exact (proj2 (proj2 (leds_exclusive_outside_update all_pressed power_on 1)) _ Hpre Hlen).
Defined.

(** C6 (as stated) fails: with all twelve sensors pressed, the first round
    of [loop] raises the green LED (line 196) while the red one, high since
    [setup], is still high; until line 197 runs both indicator outputs are
    high. *)
Lemma leds_both_high_after_line_196 :
  let tr := emitted (firmware all_pressed 1) power_on in
  let pre := take (length tr - 2) tr in
  pre `prefix_of` tr
  /\ (length (emitted (setup all_pressed) power_on) <= length pre)%nat
  /\ level (replay (pins power_on) pre) GREEN_LED = true
  /\ level (replay (pins power_on) pre) RED_LED = true
  /\ ~ leds_exclusive (replay (pins power_on) pre).
Proof.
  cbv zeta. split; [apply prefix_take|].
  split; [vm_compute; lia|].
  assert (Hg : level (replay (pins power_on)
                 (take (length (emitted (firmware all_pressed 1) power_on) - 2)
                    (emitted (firmware all_pressed 1) power_on))) GREEN_LED = true)
    by (vm_compute; reflexivity).
  assert (Hr : level (replay (pins power_on)
                 (take (length (emitted (firmware all_pressed 1) power_on) - 2)
                    (emitted (firmware all_pressed 1) power_on))) RED_LED = true)
    by (vm_compute; reflexivity).
  split; [done|]. split; [done|].
  unfold leds_exclusive. rewrite Hg, Hr. discriminate.
Qed.

(** C10.  In every round, the DHT22 is read once for humidity and once for
    temperature.  When either value read is NaN, the data string carries the
    rendering of -1 in both the dhtHumidity and the dhtTemp field; when
    neither is NaN it carries the two values read, unchanged.  That data
    string is the one handed to the upload, which with WiFi connected opens
    the script URL with it as the query. *)
Theorem dht_nan_gives_sentinel env w :
  exists front h t,
    humidity_reads (emitted (acquire env) w) = [h]
    /\ temperature_reads (emitted (acquire env) w) = [t]
    /\ (isnan h = true \/ isnan t = true ->
        fst (eval (acquire env) w)
        = front +:+ "&dhtHumidity=" +:+ String_float env (float_of_int (-1)) 2
                +:+ "&dhtTemp=" +:+ String_float env (float_of_int (-1)) 2)
    /\ (isnan h = false /\ isnan t = false ->
        fst (eval (acquire env) w)
        = front +:+ "&dhtHumidity=" +:+ String_float env h 2
                +:+ "&dhtTemp=" +:+ String_float env t 2)
    /\ float_of_int (-1) = S754_finite true 8388608 (-23)
    /\ emitted (loop env) w
       = emitted (acquire env) w
         ++ emitted (sendDataToGoogleSheets env (fst (eval (acquire env) w)))
              (exec (acquire env) w)
         ++ [EDigitalWrite GREEN_LED (snd (eval (acquire env) w) >? 4);
             EDigitalWrite RED_LED (negb (snd (eval (acquire env) w) >? 4));
             EDelay 500]
    /\ (env_wifi_status env (log (exec (acquire env) w)) = WL_CONNECTED ->
        In (EHttpBegin (googleScriptUrl +:+ "?" +:+ fst (eval (acquire env) w)))
           (emitted (loop env) w)).
Proof.
  destruct (acquire_run env w) as (vs & a & g & temp & h & t & _ & Hrun).
  cbv zeta in Hrun.
  set (pd := postData_of env _ _ a g temp _ _) in Hrun.
  assert (Hadds : run_adds (acquire env) w (acquire_trace vs a g temp h t pd)).
  { unfold run_adds, exec. rewrite Hrun. cbn [snd log pins]. split; reflexivity. }
  assert (Hev : fst (eval (acquire env) w) = pd) by (unfold eval; rewrite Hrun; reflexivity).
  clear Hrun.
  exists (fsr_fold 12 0 "" vs +:+
          "&active=" +:+ String_int (active_fold PRESSURE_THRESHOLD 0 vs) +:+
          "&accelX=" +:+ String_float env (vx a) 2 +:+
          "&accelY=" +:+ String_float env (vy a) 2 +:+
          "&accelZ=" +:+ String_float env (vz a) 2 +:+
          "&gyroX=" +:+ String_float env (vx g) 2 +:+
          "&gyroY=" +:+ String_float env (vy g) 2 +:+
          "&gyroZ=" +:+ String_float env (vz g) 2 +:+
          "&mpuTemp=" +:+ String_float env temp 2), h, t.
  rewrite (run_adds_emitted _ _ _ Hadds).
  split.
  { unfold acquire_trace, humidity_reads. rewrite !omap_app.
    destruct (dht_reads_sweep_trace vs 0) as [Hh _]. unfold humidity_reads in Hh. rewrite Hh.
    by destruct (isnan h || isnan t). }
  split.
  { unfold acquire_trace, temperature_reads. rewrite !omap_app.
    destruct (dht_reads_sweep_trace vs 0) as [_ Ht]. unfold temperature_reads in Ht. rewrite Ht.
    by destruct (isnan h || isnan t). }
  split.
  { intros Hnan. rewrite Hev. subst pd. unfold postData_of, checked_dht.
    assert (isnan h || isnan t = true) as ->.
    { destruct Hnan as [-> | ->]; [reflexivity | apply orb_true_r]. }
    cbn [fst snd]. rewrite !str_app_assoc. reflexivity. }
  split.
  { intros [Hh Ht]. rewrite Hev. subst pd. unfold postData_of, checked_dht.
    rewrite Hh, Ht. cbn [orb fst snd]. rewrite !str_app_assoc. reflexivity. }
  split; [reflexivity|].
  pose proof (loop_emitted env w) as Hloop. cbv zeta in Hloop.
  rewrite (run_adds_emitted _ _ _ Hadds) in Hloop.
  split; [exact Hloop|].
  intros Hst. rewrite Hloop.
  destruct (send_connected env (fst (eval (acquire env) w)) _ Hst) as (rest & ->).
  rewrite !in_app_iff. right. left. left. right. right. left. reflexivity.
Qed.

(** A round whose humidity read is NaN while the temperature read is a
    number: both fields carry -1. *)
Lemma dht_nan_gives_sentinel_witness :
  exists front,
    fst (eval (acquire (scripted [50; 150; 99; 101] WL_CONNECTED S754_nan (S754_zero false)))
           power_on)
    = front +:+ "&dhtHumidity=-1.00&dhtTemp=-1.00".
Proof.
  destruct (dht_nan_gives_sentinel
              (scripted [50; 150; 99; 101] WL_CONNECTED S754_nan (S754_zero false)) power_on)
    as (front & h & t & Hh & Ht & Hnan & _).
  exists front.
  assert (h = S754_nan) as -> by (vm_compute in Hh; congruence).
  rewrite Hnan by (by left). reflexivity.
Defined.

(** * Further properties of the sketch *)

(** ** Connecting to WiFi *)

Lemma run_adds_later {A} (m : M A) w tr :
  run_adds m w tr -> m w = (eval m w, later w tr).
Proof.
  unfold run_adds, exec, eval, later. destruct (m w) as [a [p l]]. cbn.
  by intros [-> ->].
Qed.

Lemma later_run_adds {A} (m : M A) w tr a : m w = (a, later w tr) -> run_adds m w tr.
Proof. intros H. unfold run_adds, exec. rewrite H. split; reflexivity. Qed.

Lemma later_later w tr1 tr2 : later (later w tr1) tr2 = later w (tr1 ++ tr2).
Proof. unfold later. cbn. by rewrite replay_app, app_assoc. Qed.

Lemma wifi_wait_run env r : forall w,
  wifi_wait env r w
  = (tt, later w (wait_events env r (log w) (level (pins w) BUILTIN_LED))).
Proof.
  induction r as [|r IH]; intros [p l]; cbn [wifi_wait wait_events pins log].
  - cbv [bind WiFi_status input emit ret fst snd later pins log].
    destruct (env_wifi_status env l =? WL_CONNECTED); reflexivity.
  - unfold bind at 1. cbv [WiFi_status input emit fst snd apply_event pins log].
    destruct (env_wifi_status env l =? WL_CONNECTED); [reflexivity|].
    cbv [bind digitalRead digitalWrite delay Serial_print emit fst snd apply_event pins log].
    rewrite IH. cbn [pins log]. rewrite level_insert_eq.
    assert (Hlvl : negb ((if (if level p BUILTIN_LED then HIGH else LOW) =? 0
                          then 1 else 0) =? 0) = negb (level p BUILTIN_LED))
      by (by destruct (level p BUILTIN_LED)).
    rewrite Hlvl. unfold later. cbn [pins log].
    rewrite <- !app_assoc. cbn [app]. reflexivity.
Qed.

Lemma connectToWiFi_run env w :
  connectToWiFi env w
  = (tt, later w (connect_events env (log w) (level (pins w) BUILTIN_LED))).
Proof.
  destruct w as [p l]. unfold connectToWiFi, connect_events. cbv zeta.
  generalize 20%nat. intros r.
  cbv [bind Serial_println pinMode emit fst snd apply_event pins log].
  rewrite wifi_wait_run. unfold later. cbn [pins log].
  set (start := [ESerial ("Connecting to WiFi..." +:+ CRLF); EWiFiBegin ssid password;
                 EPinMode BUILTIN_LED OUTPUT]).
  replace (((l ++ [ESerial ("Connecting to WiFi..." +:+ CRLF)])
            ++ [EWiFiBegin ssid password]) ++ [EPinMode BUILTIN_LED OUTPUT])
    with (l ++ start) by (by rewrite <- !app_assoc).
  generalize (wait_events env r (l ++ start) (level p BUILTIN_LED)). intros wt.
  cbv [WiFi_status input emit fst snd apply_event pins log].
  rewrite <- (app_assoc l start wt).
  destruct (env_wifi_status env (l ++ start ++ wt) =? WL_CONNECTED).
  - cbv [WiFi_localIP Serial_print Serial_println digitalWrite bind input emit
         fst snd apply_event pins log].
    rewrite <- !app_assoc. cbn [app].
    f_equal. f_equal. rewrite !replay_app. reflexivity.
  - cbv [Serial_println bind emit fst snd apply_event pins log].
    rewrite <- !app_assoc. cbn [app].
    f_equal. f_equal. rewrite !replay_app. reflexivity.
Qed.

Lemma total_delay_app tr1 tr2 :
  total_delay (tr1 ++ tr2) = total_delay tr1 + total_delay tr2.
Proof.
  induction tr1 as [|e tr1 IH]; [done|]. destruct e; cbn [app total_delay]; lia.
Qed.

Lemma wifi_statuses_app tr1 tr2 :
  wifi_statuses (tr1 ++ tr2) = wifi_statuses tr1 ++ wifi_statuses tr2.
Proof. apply omap_app. Qed.

(** Levels and directions of the pins that tame events leave alone. *)
Lemma replay_tame S p tr pin :
  Forall (tame S) tr -> ~ In pin S -> replay p tr !! pin = p !! pin.
Proof.
  intros Htr Hpin. induction tr as [|e tr IH] using rev_ind; [done|].
  rewrite Forall_app, Forall_singleton in Htr. destruct Htr as [Htr He].
  rewrite replay_snoc, <- (IH Htr).
  destruct e; try done. cbn [apply_event tame] in *.
  apply lookup_insert_ne. intros Heq. subst. contradiction.
Qed.

Lemma wait_events_tame env S r : forall h lvl,
  In BUILTIN_LED S -> Forall (tame S) (wait_events env r h lvl).
Proof.
  induction r as [|r IH]; intros h lvl HS; cbn [wait_events];
    destruct (_ =? WL_CONNECTED); try by repeat constructor.
  cbn [app]. repeat (constructor; [by cbn|]). by apply IH.
Qed.

Lemma connect_events_tame env S h lvl :
  In BUILTIN_LED S -> Forall (tame S) (connect_events env h lvl).
Proof.
  intros HS. unfold connect_events. cbv zeta. rewrite !Forall_app.
  split; [by repeat constructor|].
  split; [by apply wait_events_tame|].
  split; [by repeat constructor|].
  destruct (_ =? WL_CONNECTED); by repeat constructor.
Qed.

(** The wait loop: at most [r] rounds of 500 ms, one status query per round
    and one more. *)
Lemma wait_events_rounds env r : forall h lvl,
  0 <= total_delay (wait_events env r h lvl) <= 500 * Z.of_nat r
  /\ 500 * (Z.of_nat (length (wifi_statuses (wait_events env r h lvl))) - 1)
     = total_delay (wait_events env r h lvl).
Proof.
  induction r as [|r IH]; intros h lvl; cbn [wait_events];
    destruct (_ =? WL_CONNECTED); cbn; try lia.
  match goal with |- context [wait_events env r ?h' ?l'] =>
    destruct (IH h' l') as [IH1 IH2] end.
  unfold wifi_statuses in *. cbn in IH2. lia.
Qed.


Lemma connectToWiFi_adds env w :
  run_adds (connectToWiFi env) w (connect_events env (log w) (level (pins w) BUILTIN_LED)).
Proof. eapply later_run_adds, connectToWiFi_run. Qed.

Lemma connect_events_rounds env h lvl :
  let tr := connect_events env h lvl in
  0 <= total_delay tr <= 10000
  /\ 500 * (Z.of_nat (length (wifi_statuses tr)) - 2) = total_delay tr
  /\ (length (wifi_statuses tr) <= 22)%nat.
Proof.
  unfold connect_events. cbv zeta.
  set (start := [ESerial ("Connecting to WiFi..." +:+ CRLF); EWiFiBegin ssid password;
                 EPinMode BUILTIN_LED OUTPUT]).
  set (wt := wait_events env 20 (h ++ start) lvl).
  destruct (wait_events_rounds env 20 (h ++ start) lvl) as [Hd Hs]. fold wt in Hd, Hs.
  rewrite !total_delay_app, !wifi_statuses_app, !length_app.
  assert (Htail : forall (c : bool) (a b : list Event),
            total_delay a = 0 -> total_delay b = 0 -> wifi_statuses a = [] ->
            wifi_statuses b = [] ->
            total_delay (if c then a else b) = 0
            /\ wifi_statuses (if c then a else b) = []) by (by intros []).
  match goal with |- context [if ?c then ?a else ?b] =>
    destruct (Htail c a b) as [-> ->]; try reflexivity end.
  change (wifi_statuses start) with (@nil Z).
  change (wifi_statuses [EWiFiStatus ?x]) with [x].
  cbn [total_delay length start]. lia.
Qed.

(** X1.  A call of [connectToWiFi] waits at most 10 seconds, in steps of
    500 ms: it asks for the WiFi status once per step and twice more, so at
    most 22 times. *)
Theorem connectToWiFi_bounded env w :
  let tr := emitted (connectToWiFi env) w in
  0 <= total_delay tr <= 10000
  /\ 500 * (Z.of_nat (length (wifi_statuses tr)) - 2) = total_delay tr
  /\ (length (wifi_statuses tr) <= 22)%nat.
Proof.
  cbv zeta. rewrite (run_adds_emitted _ _ _ (connectToWiFi_adds env w)).
  apply connect_events_rounds.
Qed.



(** X3.  The last status answered decides how [connectToWiFi] ends.  If it
    is "connected", the built-in LED is left high and the call ends by asking
    for the local IP address and printing it.  If it is anything else, even
    after a "connected" seen while waiting, the address is never asked for
    and the call ends with the failure message. *)
Theorem connectToWiFi_outcome env w :
  let tr := emitted (connectToWiFi env) w in
  (last (wifi_statuses tr) = Some WL_CONNECTED ->
     level (pins (exec (connectToWiFi env) w)) BUILTIN_LED = true
     /\ exists ip tr', tr = tr' ++ [EWiFiLocalIP ip; ESerial (ip +:+ CRLF)])
  /\ (last (wifi_statuses tr) <> Some WL_CONNECTED ->
     Forall (fun e => forall ip, e <> EWiFiLocalIP ip) tr
     /\ last tr = Some (ESerial ("WiFi Connection Failed" +:+ CRLF))).
Proof.
  cbv zeta. rewrite (proj2 (connectToWiFi_adds env w)).
  rewrite (run_adds_emitted _ _ _ (connectToWiFi_adds env w)).
  unfold connect_events. cbv zeta.
  set (start := [ESerial ("Connecting to WiFi..." +:+ CRLF); EWiFiBegin ssid password;
                 EPinMode BUILTIN_LED OUTPUT]).
  set (wt := wait_events env 20 (log w ++ start) (level (pins w) BUILTIN_LED)).
  set (st := env_wifi_status env (log w ++ start ++ wt)).
  assert (Hlast : forall tail, wifi_statuses tail = [] ->
            last (wifi_statuses (start ++ wt ++ [EWiFiStatus st] ++ tail)) = Some st).
  { intros tail Htail. rewrite !wifi_statuses_app, Htail, app_nil_r.
    change (wifi_statuses [EWiFiStatus st]) with [st].
    rewrite app_assoc. apply last_snoc. }
  assert (Hwt : Forall (fun e => forall ip, e <> EWiFiLocalIP ip) wt).
  { subst wt. generalize (log w ++ start), (level (pins w) BUILTIN_LED), 20%nat.
    intros h lvl r. revert h lvl.
    induction r as [|r IH]; intros h lvl; cbn [wait_events];
      destruct (_ =? WL_CONNECTED); by repeat constructor. }
  destruct (Z.eqb_spec st WL_CONNECTED) as [Hc|Hc]; rewrite Hlast by reflexivity.
  - split; [intros _|intros Hne; by rewrite Hc in Hne].
    split.
    + rewrite !replay_app. unfold replay at 1. cbn [foldl apply_event].
      apply level_insert_eq.
    + eexists _, (start ++ wt ++ [EWiFiStatus st; EDigitalWrite BUILTIN_LED true;
                                  ESerial ("" +:+ CRLF); ESerial ("WiFi Connected" +:+ CRLF);
                                  ESerial "IP Address: "]).
      rewrite <- !app_assoc. reflexivity.
  - split; [intros [= Heq]; done|intros _]. split.
    + rewrite !Forall_app. split; [by repeat constructor|]. split; [done|].
      by repeat constructor.
    + change [ESerial ("" +:+ CRLF); ESerial ("WiFi Connection Failed" +:+ CRLF)]
        with ([ESerial ("" +:+ CRLF)] ++ [ESerial ("WiFi Connection Failed" +:+ CRLF)]).
      rewrite !app_assoc. apply last_snoc.
Qed.

Lemma connectToWiFi_outcome_witness :
  let env := scripted [] WL_CONNECTED S754_nan S754_nan in
  last (wifi_statuses (emitted (connectToWiFi env) power_on)) = Some WL_CONNECTED
  /\ level (pins (exec (connectToWiFi env) power_on)) BUILTIN_LED = true.
Proof.
  cbv zeta.
  assert (H : last (wifi_statuses
                      (emitted (connectToWiFi (scripted [] WL_CONNECTED S754_nan S754_nan))
                         power_on)) = Some WL_CONNECTED) by (vm_compute; reflexivity).
  split; [exact H|].
  exact (proj1 (proj1 (connectToWiFi_outcome
                         (scripted [] WL_CONNECTED S754_nan S754_nan) power_on) H)).
Defined.

(** ** Uploading *)

Lemma send_disconnected_run env data w :
  env_wifi_status env (log w) <> WL_CONNECTED ->
  let head := [EWiFiStatus (env_wifi_status env (log w));
               ESerial ("WiFi Disconnected - Attempting to reconnect" +:+ CRLF)] in
  sendDataToGoogleSheets env data w
  = (tt, later w (head ++ connect_events env (log w ++ head) (level (pins w) BUILTIN_LED))).
Proof.
  intros Hst. cbv zeta. destruct w as [p l]. cbn [pins log] in *.
  unfold sendDataToGoogleSheets. unfold bind at 1.
  cbv [WiFi_status input emit fst snd apply_event pins log].
  destruct (Z.eqb_spec (env_wifi_status env l) WL_CONNECTED) as [?|_]; [done|].
  cbv [bind Serial_println emit fst snd apply_event pins log].
  rewrite connectToWiFi_run. cbn [pins log].
  unfold later. cbn [pins log]. rewrite <- !app_assoc, replay_app. cbn [app].
  generalize (connect_events env
                (l ++ [EWiFiStatus (env_wifi_status env l);
                       ESerial ("WiFi Disconnected - Attempting to reconnect" +:+ CRLF)])
                (level p BUILTIN_LED)).
  intros ct. reflexivity.
Qed.

Lemma send_connected_run env data w :
  env_wifi_status env (log w) = WL_CONNECTED ->
  exists httpCode payload,
    sendDataToGoogleSheets env data w
    = (tt, later w (upload_events env data httpCode payload)).
Proof.
  intros Hst. destruct w as [p l]. cbn [pins log] in *.
  unfold sendDataToGoogleSheets. unfold bind at 1.
  cbv [WiFi_status input emit fst snd apply_event pins log].
  rewrite Hst. change (WL_CONNECTED =? WL_CONNECTED) with true. cbv iota.
  cbv [bind Serial_println http_GET input emit fst snd apply_event pins log].
  match goal with |- context [env_http_GET env ?h] =>
    generalize (env_http_GET env h); intros httpCode end.
  destruct (httpCode =? HTTP_CODE_OK) eqn:Hcode.
  - cbv [bind Serial_println http_getString input emit fst snd apply_event pins log].
    match goal with |- context [env_http_getString env ?h] =>
      generalize (env_http_getString env h); intros payload end.
    exists httpCode, payload. unfold upload_events, response_events, later.
    rewrite Hcode. cbn [pins log]. rewrite <- !app_assoc. reflexivity.
  - cbv [bind Serial_print emit fst snd apply_event pins log].
    exists httpCode, "". unfold upload_events, response_events, later.
    rewrite Hcode. cbn [pins log]. rewrite <- !app_assoc. reflexivity.
Qed.

(** Whatever holds of each kind of event [connectToWiFi] can emit holds of
    all it emits. *)
Lemma connect_events_Forall (P : Event -> Prop) env h lvl :
  (forall s, P (EWiFiStatus s)) -> (forall b, P (EDigitalWrite BUILTIN_LED b)) ->
  (forall s, P (ESerial s)) -> (forall ip, P (EWiFiLocalIP ip)) ->
  P (EDelay 500) -> P (EWiFiBegin ssid password) -> P (EPinMode BUILTIN_LED OUTPUT) ->
  Forall P (connect_events env h lvl).
Proof.
  intros Hst Hw Hs Hip Hd Hb Hm. unfold connect_events. cbv zeta.
  rewrite !Forall_app. split; [by repeat constructor|]. split.
  - generalize (h ++ [ESerial ("Connecting to WiFi..." +:+ CRLF); EWiFiBegin ssid password;
                      EPinMode BUILTIN_LED OUTPUT]), 20%nat.
    intros h' r. revert h' lvl.
    induction r as [|r IH]; intros h' lvl; cbn [wait_events];
      destruct (_ =? WL_CONNECTED); by repeat constructor.
  - split; [by repeat constructor|].
    destruct (_ =? WL_CONNECTED); by repeat constructor.
Qed.

(** X4.  With WiFi connected when it is called, [sendDataToGoogleSheets]
    makes exactly one HTTP GET, to the script URL followed by "?" and the
    data; it reads the response body only when the code is 200, otherwise it
    prints the error; it always ends the HTTP session, and it changes no
    pin. *)
Theorem sendData_uploads_once env data w :
  env_wifi_status env (log w) = WL_CONNECTED ->
  exists httpCode payload,
    emitted (sendDataToGoogleSheets env data) w = upload_events env data httpCode payload
    /\ http_urls (emitted (sendDataToGoogleSheets env data) w)
       = [googleScriptUrl +:+ "?" +:+ data]
    /\ (httpCode <> HTTP_CODE_OK ->
        Forall (fun e => forall s, e <> EHttpGetString s)
          (emitted (sendDataToGoogleSheets env data) w))
    /\ last (emitted (sendDataToGoogleSheets env data) w) = Some EHttpEnd
    /\ pins (exec (sendDataToGoogleSheets env data) w) = pins w.
Proof.
  intros Hst. destruct (send_connected_run env data w Hst) as (code & payload & Hrun).
  pose proof (later_run_adds _ _ _ _ Hrun) as Hadds.
  exists code, payload. rewrite (run_adds_emitted _ _ _ Hadds), (proj2 Hadds).
  unfold upload_events, response_events.
  split; [reflexivity|]. split; [by destruct (code =? HTTP_CODE_OK)|]. split.
  { intros Hne. destruct (Z.eqb_spec code HTTP_CODE_OK); [done|]. by repeat constructor. }
  split.
  { rewrite !app_assoc. apply last_snoc. }
  apply replay_no_write. destruct (code =? HTTP_CODE_OK); by repeat constructor.
Qed.

Lemma sendData_uploads_once_witness :
  let env := scripted [] WL_CONNECTED S754_nan S754_nan in
  env_wifi_status env (log power_on) = WL_CONNECTED
  /\ http_urls (emitted (sendDataToGoogleSheets env "active=0") power_on)
     = [googleScriptUrl +:+ "?" +:+ "active=0"].
Proof.
  cbv zeta. split; [reflexivity|].
  destruct (sendData_uploads_once (scripted [] WL_CONNECTED S754_nan S754_nan)
              "active=0" power_on eq_refl) as (c & pl & _ & H & _).
  exact H.
Defined.



(** X6.  Neither [connectToWiFi] nor [sendDataToGoogleSheets] changes any
    pin but the built-in LED. *)
Theorem wifi_code_keeps_other_pins env data w pin :
  pin <> BUILTIN_LED ->
  pins (exec (connectToWiFi env) w) !! pin = pins w !! pin
  /\ pins (exec (sendDataToGoogleSheets env data) w) !! pin = pins w !! pin.
Proof.
  intros Hpin.
  assert (Hnot : ~ In pin [BUILTIN_LED]) by (intros [?|[]]; done).
  split.
  - rewrite (proj2 (connectToWiFi_adds env w)).
    apply (replay_tame [BUILTIN_LED]); [|done].
    apply connect_events_tame. by left.
  - destruct (Z.eq_dec (env_wifi_status env (log w)) WL_CONNECTED) as [Hst|Hst].
    + destruct (send_connected_run env data w Hst) as (code & payload & Hrun).
      rewrite (proj2 (later_run_adds _ _ _ _ Hrun)).
      rewrite replay_no_write; [reflexivity|].
      unfold upload_events, response_events.
      destruct (code =? HTTP_CODE_OK); by repeat constructor.
    + pose proof (send_disconnected_run env data w Hst) as Hrun. cbv zeta in Hrun.
      rewrite (proj2 (later_run_adds _ _ _ _ Hrun)).
      apply (replay_tame [BUILTIN_LED]); [|done].
      apply Forall_app. split; [by repeat constructor|].
      apply connect_events_tame. by left.
Qed.

(** A failed reconnection leaves the red LED as [setup] put it. *)
Lemma wifi_code_keeps_other_pins_witness :
  let env := scripted [] 0 S754_nan S754_nan in
  RED_LED <> BUILTIN_LED
  /\ pins (exec (sendDataToGoogleSheets env "active=0") (exec (setup env) power_on))
       !! RED_LED = Some true.
Proof.
  cbv zeta.
  assert (H : RED_LED <> BUILTIN_LED) by discriminate.
  split; [exact H|].
  rewrite (proj2 (wifi_code_keeps_other_pins (scripted [] 0 S754_nan S754_nan) "active=0"
                    (exec (setup (scripted [] 0 S754_nan S754_nan)) power_on) RED_LED H)).
  vm_compute. reflexivity.
Defined.

(** ** Setup *)

Lemma setup_run_events env w :
  setup env w
  = (mpu_found env (log w) (level (pins w) BUILTIN_LED),
     later w (setup_events env (log w) (level (pins w) BUILTIN_LED))).
Proof.
  destruct w as [p l]. unfold setup, setup_events, mpu_found. cbn [pins log].
  cbv [bind pinMode digitalWrite emit fst snd apply_event pins log].
  rewrite connectToWiFi_run. cbn [pins log].
  rewrite !level_insert_ne by done.
  replace ((((((((((l ++ [ESerialBegin 115200]) ++ [EPinMode S0 OUTPUT])
             ++ [EPinMode S1 OUTPUT]) ++ [EPinMode S2 OUTPUT]) ++ [EPinMode S3 OUTPUT])
             ++ [EPinMode MUX_SIG INPUT]) ++ [EPinMode GREEN_LED OUTPUT])
             ++ [EPinMode RED_LED OUTPUT]) ++ [EDigitalWrite RED_LED (negb (HIGH =? 0))])
             ++ [EDigitalWrite GREEN_LED (negb (LOW =? 0))])
    with (l ++ init_events) by (by rewrite <- !app_assoc).
  generalize (connect_events env (l ++ init_events) (level p BUILTIN_LED)). intros ct.
  unfold later. cbn [pins log].
  cbv [mpu_begin input emit fst snd apply_event pins log].
  rewrite <- !app_assoc.
  destruct (env_mpu_begin env (l ++ init_events ++ ct ++ [EWireBegin 21 22])) eqn:Hf;
    cbv [negb bind Serial_println delay emit ret fst snd apply_event pins log];
    rewrite <- !app_assoc; cbn [app]; f_equal; f_equal;
    rewrite ?replay_app; reflexivity.
Qed.

Lemma setup_adds env w :
  run_adds (setup env) w (setup_events env (log w) (level (pins w) BUILTIN_LED)).
Proof. eapply later_run_adds, setup_run_events. Qed.


(** ** Rounds of [loop], one after the other *)

Lemma run_adds_own {A} (m : M A) w tr : run_adds m w tr -> run_adds m w (emitted m w).
Proof. intros H. by rewrite (run_adds_emitted _ _ _ H). Qed.

Lemma loop_adds env w : run_adds (loop env) w (emitted (loop env) w).
Proof. destruct (loop_run env w) as (body & g & Hrun & _). by eapply run_adds_own. Qed.

Lemma loops_adds env n : forall w, run_adds (loops env n) w (emitted (loops env n) w).
Proof.
  induction n as [|n IH]; intros w; cbn [loops].
  - eapply run_adds_own, run_adds_ret.
  - eapply run_adds_own, run_adds_bind; [apply loop_adds | apply IH].
Qed.

Lemma loops_emitted_succ env n w :
  emitted (loops env (S n)) w
  = emitted (loop env) w ++ emitted (loops env n) (exec (loop env) w).
Proof.
  apply run_adds_emitted. cbn [loops].
  apply run_adds_bind; [apply loop_adds | apply loops_adds].
Qed.

Lemma firmware_emitted env n w :
  emitted (firmware env n) w
  = emitted (setup env) w
    ++ (if eval (setup env) w then emitted (loops env n) (exec (setup env) w) else []).
Proof.
  apply run_adds_emitted. unfold firmware.
  apply run_adds_bind; [eapply run_adds_own, setup_adds|].
  destruct (eval (setup env) w); [apply loops_adds | apply run_adds_ret].
Qed.

Lemma acquire_emitted env w :
  exists vs a g temp h t pd,
    length vs = 12%nat /\ emitted (acquire env) w = acquire_trace vs a g temp h t pd.
Proof.
  destruct (acquire_run env w) as (vs & a & g & temp & h & t & Hlen & Hrun).
  cbv zeta in Hrun. exists vs, a, g, temp, h, t. eexists. split; [exact Hlen|].
  apply run_adds_emitted. unfold run_adds, exec. rewrite Hrun.
  cbn [snd log pins]. split; reflexivity.
Qed.

(** What holds of every event of an acquisition, of an upload and of the LED
    update holds of every event of a round, and of any number of rounds. *)
Lemma loop_Forall (P : Event -> Prop) env w :
  Forall P (emitted (acquire env) w) ->
  Forall P (emitted (sendDataToGoogleSheets env (fst (eval (acquire env) w)))
              (exec (acquire env) w)) ->
  (forall pin b, In pin [GREEN_LED; RED_LED] -> P (EDigitalWrite pin b)) ->
  P (EDelay 500) ->
  Forall P (emitted (loop env) w).
Proof.
  intros Ha Hs Hw Hd. pose proof (loop_emitted env w) as He. cbv zeta in He.
  rewrite He, !Forall_app. repeat split; try done.
  repeat constructor; try done; apply Hw; cbn; tauto.
Qed.

Lemma loops_Forall (P : Event -> Prop) env :
  (forall w, Forall P (emitted (loop env) w)) ->
  forall n w, Forall P (emitted (loops env n) w).
Proof.
  intros Hloop. induction n as [|n IH]; intros w.
  - unfold emitted, exec. cbn. rewrite drop_all. constructor.
  - rewrite loops_emitted_succ. apply Forall_app. split; [apply Hloop | apply IH].
Qed.

Lemma sweep_trace_Forall (P : Event -> Prop) vs : forall i,
  (forall pin b, In pin [S0; S1; S2; S3] -> P (EDigitalWrite pin b)) ->
  (forall v, P (EAnalogRead MUX_SIG v)) -> (forall s, P (ESerial s)) -> P (EDelay 10) ->
  Forall P (sweep_trace i vs).
Proof.
  intros i Hw Ha Hs Hd. revert i.
  induction vs as [|v vs IH]; intros i; cbn [sweep_trace]; [constructor|].
  apply Forall_app. split; [|apply IH].
  unfold sweep_block, select_events.
  repeat constructor; try done; apply Hw; cbn; tauto.
Qed.

Lemma send_Forall (P : Event -> Prop) env data w :
  (forall s, P (EWiFiStatus s)) -> (forall b, P (EDigitalWrite BUILTIN_LED b)) ->
  (forall s, P (ESerial s)) -> (forall ip, P (EWiFiLocalIP ip)) ->
  P (EDelay 500) -> P (EWiFiBegin ssid password) -> P (EPinMode BUILTIN_LED OUTPUT) ->
  (forall e, is_http e = true -> P e) ->
  Forall P (emitted (sendDataToGoogleSheets env data) w).
Proof.
  intros Hst Hw Hs Hip Hd Hb Hm Hhttp.
  destruct (Z.eq_dec (env_wifi_status env (log w)) WL_CONNECTED) as [Hc|Hc].
  - destruct (send_connected_run env data w Hc) as (code & payload & Hrun).
    rewrite (run_adds_emitted _ _ _ (later_run_adds _ _ _ _ Hrun)).
    unfold upload_events, response_events.
    destruct (code =? HTTP_CODE_OK); repeat constructor; try done; by apply Hhttp.
  - pose proof (send_disconnected_run env data w Hc) as Hrun. cbv zeta in Hrun.
    rewrite (run_adds_emitted _ _ _ (later_run_adds _ _ _ _ Hrun)).
    apply Forall_app. split; [by repeat constructor|]. by apply connect_events_Forall.
Qed.

Lemma acquire_trace_Forall (P : Event -> Prop) vs a g temp h t pd :
  (forall pin b, In pin [S0; S1; S2; S3] -> P (EDigitalWrite pin b)) ->
  (forall v, P (EAnalogRead MUX_SIG v)) -> (forall s, P (ESerial s)) -> P (EDelay 10) ->
  (forall a g temp, P (EMpuGetEvent a g temp)) ->
  (forall v, P (EDhtReadHumidity v)) -> (forall v, P (EDhtReadTemperature v)) ->
  Forall P (acquire_trace vs a g temp h t pd).
Proof.
  intros Hw Ha Hs Hd Hm Hh Ht. unfold acquire_trace. rewrite !Forall_app.
  split; [by apply sweep_trace_Forall|].
  split; [by repeat constructor|].
  split; [destruct (isnan h || isnan t)|]; by repeat constructor.
Qed.

Lemma setup_events_rest_tame env h lvl :
  exists rest, setup_events env h lvl = init_events ++ rest
    /\ Forall (tame [BUILTIN_LED]) rest
    /\ Forall (fun e => forall pin v, e <> EAnalogRead pin v) rest
    /\ (In EDhtBegin rest <-> mpu_found env h lvl = true)
    /\ total_delay rest
       = total_delay (connect_events env (h ++ init_events) lvl)
         + (if mpu_found env h lvl then 2000 else 0)
    /\ (mpu_found env h lvl = false ->
        last rest = Some (ESerial ("Failed to find MPU6050 chip" +:+ CRLF))).
Proof.
  unfold setup_events. eexists. split; [reflexivity|].
  assert (Hdht : Forall (fun e => e <> EDhtBegin)
                   (connect_events env (h ++ init_events) lvl))
    by (by apply connect_events_Forall).
  assert (Htame : Forall (tame [BUILTIN_LED]) (connect_events env (h ++ init_events) lvl))
    by (apply connect_events_tame; by left).
  assert (Hana : Forall (fun e => forall pin v, e <> EAnalogRead pin v)
                   (connect_events env (h ++ init_events) lvl))
    by (by apply connect_events_Forall).
  revert Hdht Htame Hana.
  generalize (connect_events env (h ++ init_events) lvl).
  generalize (mpu_found env h lvl). intros f ct Hdht Htame Hana.
  split; [|split; [|split; [|split]]].
  - rewrite !Forall_app. split; [exact Htame|].
    split; [by repeat constructor|]. destruct f; by repeat constructor.
  - rewrite !Forall_app. split; [exact Hana|].
    split; [by repeat constructor|]. destruct f; by repeat constructor.
  - assert (Hnot : ~ In EDhtBegin ct).
    { intros Hin. rewrite Forall_forall in Hdht.
      apply (Hdht EDhtBegin); [by apply list_elem_of_In | reflexivity]. }
    rewrite !in_app_iff. destruct f; cbn.
    + split; [reflexivity|]. intros _. right. right. tauto.
    + split; [|discriminate].
      intros [Hin|[[?|[?|[]]]|[?|[]]]]; try discriminate. contradiction.
  - rewrite !total_delay_app. destruct f; cbn; lia.
  - intros ->. change [EWireBegin 21 22; EMpuBegin false]
      with ([EWireBegin 21 22] ++ [EMpuBegin false]).
    rewrite !app_assoc. apply last_snoc.
Qed.



(** ** Pin directions *)

Lemma modes_after_app m tr1 tr2 :
  modes_after m (tr1 ++ tr2) = modes_after (modes_after m tr1) tr2.
Proof. apply foldl_app. Qed.

Lemma writes_configured_app tr1 : forall m tr2,
  writes_configured m (tr1 ++ tr2)
  <-> writes_configured m tr1 /\ writes_configured (modes_after m tr1) tr2.
Proof.
  induction tr1 as [|e tr1 IH]; intros m tr2; cbn [app writes_configured].
  - cbn. tauto.
  - rewrite IH. change (modes_after m (e :: tr1)) with (modes_after (apply_mode e m) tr1).
    tauto.
Qed.

(** Tame events keep the outputs they may write as outputs, and so only
    write outputs. *)
Lemma tame_configured S tr : forall m,
  Forall (tame S) tr ->
  (forall pin, In pin S -> m !! pin = Some OUTPUT) ->
  writes_configured m tr
  /\ (forall pin, In pin S -> modes_after m tr !! pin = Some OUTPUT).
Proof.
  induction tr as [|e tr IH]; intros m Htr Hm; [done|].
  apply Forall_cons in Htr as [He Htr].
  assert (Hm' : forall pin, In pin S -> apply_mode e m !! pin = Some OUTPUT).
  { intros pin Hpin. destruct e; try by apply Hm. cbn [apply_mode tame] in *.
    destruct (decide (pin0 = pin)) as [->|Hne].
    - destruct mode; [done|]. by rewrite lookup_insert_eq.
    - rewrite lookup_insert_ne by done. by apply Hm. }
  destruct (IH _ Htr Hm') as [IH1 IH2].
  split; [|exact IH2]. cbn [writes_configured]. split; [|exact IH1].
  destruct e; try done. by apply Hm.
Qed.

Lemma loop_tame env w : Forall (tame board_outputs) (emitted (loop env) w).
Proof.
  apply loop_Forall.
  - destruct (acquire_emitted env w) as (vs & a & g & temp & h & t & pd & _ & ->).
    apply acquire_trace_Forall; try done.
    intros pin b Hpin. cbn in *. tauto.
  - apply send_Forall; try done.
    + intros b. cbn. tauto.
    + by intros [].
  - intros pin b Hpin. cbn in *. tauto.
  - done.
Qed.

Lemma setup_events_split env h lvl :
  exists rest,
    setup_events env h lvl
    = (init_events ++ [ESerial ("Connecting to WiFi..." +:+ CRLF); EWiFiBegin ssid password;
                       EPinMode BUILTIN_LED OUTPUT]) ++ rest
    /\ Forall (tame board_outputs) rest.
Proof.
  unfold setup_events, connect_events. cbv zeta.
  assert (Hwt : forall h', Forall (tame board_outputs) (wait_events env 20 h' lvl))
    by (intros h'; apply wait_events_tame; cbn; tauto).
  revert Hwt. generalize (mpu_found env h lvl). generalize (wait_events env 20).
  intros wait f Hwt.
  eexists. split; [rewrite <- !app_assoc; reflexivity|].
  rewrite !Forall_app.
  split; [apply Hwt|]. split; [by repeat constructor|].
  split; [destruct (_ =? WL_CONNECTED); repeat constructor; cbn; tauto|].
  split; [by repeat constructor|]. destruct f; by repeat constructor.
Qed.

Lemma init_configures_outputs pin :
  In pin board_outputs ->
  modes_after ∅ (init_events ++ [ESerial ("Connecting to WiFi..." +:+ CRLF);
                                  EWiFiBegin ssid password; EPinMode BUILTIN_LED OUTPUT])
    !! pin = Some OUTPUT.
Proof.
  intros Hpin. cbn in Hpin.
  repeat (destruct Hpin as [<-|Hpin]; [vm_compute; reflexivity|]). destruct Hpin.
Qed.

Lemma init_writes_configured :
  writes_configured ∅ (init_events ++ [ESerial ("Connecting to WiFi..." +:+ CRLF);
                                        EWiFiBegin ssid password;
                                        EPinMode BUILTIN_LED OUTPUT]).
Proof.
  unfold init_events. cbn [app writes_configured apply_mode].
  repeat split; vm_compute; reflexivity.
Qed.

(** X8.  From power-on, the sketch never writes a pin that it has not made
    an output before: in [setup] and in any number of rounds of [loop], every
    [digitalWrite] hits a pin whose last [pinMode] so far was OUTPUT. *)
Theorem writes_only_to_outputs env n w :
  writes_configured ∅ (emitted (firmware env n) w).
Proof.
  rewrite firmware_emitted, (run_adds_emitted _ _ _ (setup_adds env w)).
  assert (Htr : Forall (tame board_outputs)
            (if eval (setup env) w then emitted (loops env n) (exec (setup env) w) else [])).
  { destruct (eval (setup env) w); [|constructor].
    apply loops_Forall. apply loop_tame. }
  revert Htr.
  generalize (if eval (setup env) w then emitted (loops env n) (exec (setup env) w) else []).
  intros tr Htr.
  destruct (setup_events_split env (log w) (level (pins w) BUILTIN_LED))
    as (rest & -> & Hrest).
  rewrite <- app_assoc. apply writes_configured_app.
  split; [apply init_writes_configured|].
  apply (tame_configured board_outputs).
  - apply Forall_app. by split.
  - apply init_configures_outputs.
Qed.
(** ** Analog reads, durations and counts of a round *)

Lemma analog_pins_app tr1 tr2 :
  analog_pins (tr1 ++ tr2) = analog_pins tr1 ++ analog_pins tr2.
Proof. apply omap_app. Qed.

Lemma no_analog_read tr :
  Forall (fun e => forall pin v, e <> EAnalogRead pin v) tr ->
  analog_pins tr = [] /\ analog_samples tr = [].
Proof.
  induction 1 as [|e tr He _ [IH1 IH2]]; [done|].
  unfold analog_pins, analog_samples in *. cbn. rewrite IH1, IH2.
  destruct e; try done. by destruct (He pin value).
Qed.

Lemma sweep_trace_readings vs : forall i,
  analog_pins (sweep_trace i vs) = replicate (length vs) MUX_SIG
  /\ total_delay (sweep_trace i vs) = 10 * Z.of_nat (length vs).
Proof.
  induction vs as [|v vs IH]; intros i; [done|].
  cbn [sweep_trace]. rewrite analog_pins_app, total_delay_app.
  destruct (IH (i + 1)) as [-> ->]. cbn [length replicate].
  change (analog_pins (sweep_block i v)) with [MUX_SIG].
  change (total_delay (sweep_block i v)) with 10. split; [done|lia].
Qed.

Lemma send_no_analog_read env data w :
  Forall (fun e => forall pin v, e <> EAnalogRead pin v)
    (emitted (sendDataToGoogleSheets env data) w).
Proof. apply send_Forall; try done. by intros []. Qed.

(** One round: twelve reads of the multiplexer output, 120 ms of settling. *)
Lemma loop_readings env w :
  analog_pins (emitted (loop env) w) = replicate 12 MUX_SIG
  /\ analog_samples (emitted (loop env) w) = analog_samples (emitted (acquire env) w)
  /\ total_delay (emitted (loop env) w)
     = 620 + total_delay (emitted (sendDataToGoogleSheets env (fst (eval (acquire env) w)))
                            (exec (acquire env) w)).
Proof.
  pose proof (loop_emitted env w) as He. cbv zeta in He. rewrite He.
  destruct (no_analog_read _ (send_no_analog_read env (fst (eval (acquire env) w))
                                (exec (acquire env) w))) as [Hp Hs].
  rewrite !analog_pins_app, !analog_samples_app, !total_delay_app, Hp, Hs.
  destruct (acquire_emitted env w) as (vs & a & g & temp & h & t & pd & Hlen & ->).
  unfold acquire_trace.
  rewrite !analog_pins_app, !total_delay_app.
  destruct (sweep_trace_readings vs 0) as [-> ->]. rewrite Hlen.
  split; [|split].
  - by destruct (isnan h || isnan t).
  - by rewrite !app_nil_r.
  - destruct (isnan h || isnan t); cbn; lia.
Qed.

(** X9.  The only analog input the sketch ever reads is the multiplexer
    output, twelve times per round of [loop] and never in [setup]. *)
Theorem analog_reads_of_firmware env n w :
  analog_pins (emitted (firmware env n) w)
  = if eval (setup env) w then replicate (12 * n) MUX_SIG else [].
Proof.
  rewrite firmware_emitted, analog_pins_app.
  assert (Hsetup : analog_pins (emitted (setup env) w) = []).
  { rewrite (run_adds_emitted _ _ _ (setup_adds env w)).
    destruct (setup_events_rest_tame env (log w) (level (pins w) BUILTIN_LED))
      as (rest & -> & _ & Hno & _).
    rewrite analog_pins_app. change (analog_pins init_events) with (@nil Z).
    apply (no_analog_read _ Hno). }
  rewrite Hsetup. cbn [app].
  destruct (eval (setup env) w); [|done].
  generalize (exec (setup env) w). clear. intros w. revert w.
  induction n as [|n IH]; intros w.
  - unfold emitted, exec. cbn. by rewrite drop_all.
  - rewrite loops_emitted_succ, analog_pins_app, IH, (proj1 (loop_readings env _)).
    rewrite <- replicate_add. f_equal. lia.
Qed.

(** X10.  A round of [loop] spends at least 620 ms in [delay] (twelve times
    10 ms of settling and the final 500 ms) and at most 10 seconds more, the
    time a reconnection may take; with WiFi connected when the data is sent
    it spends exactly 620 ms. *)
Theorem round_duration env w :
  620 <= total_delay (emitted (loop env) w) <= 10620
  /\ (env_wifi_status env (log (exec (acquire env) w)) = WL_CONNECTED ->
      total_delay (emitted (loop env) w) = 620).
Proof.
  destruct (loop_readings env w) as (_ & _ & ->).
  set (data := fst (eval (acquire env) w)). set (w1 := exec (acquire env) w).
  destruct (Z.eq_dec (env_wifi_status env (log w1)) WL_CONNECTED) as [Hc|Hc].
  - destruct (send_connected_run env data w1 Hc) as (code & payload & Hrun).
    rewrite (run_adds_emitted _ _ _ (later_run_adds _ _ _ _ Hrun)).
    assert (Hz : total_delay (upload_events env data code payload) = 0).
    { unfold upload_events, response_events. by destruct (code =? HTTP_CODE_OK). }
    rewrite Hz. lia.
  - pose proof (send_disconnected_run env data w1 Hc) as Hrun. cbv zeta in Hrun.
    rewrite (run_adds_emitted _ _ _ (later_run_adds _ _ _ _ Hrun)).
    rewrite total_delay_app.
    match goal with |- context [connect_events env ?h ?l] =>
      pose proof (connect_events_rounds env h l) as Hb end.
    cbv zeta in Hb. cbn [total_delay]. split; [lia|]. intros; done.
Qed.

Lemma round_duration_witness :
  env_wifi_status all_pressed (log (exec (acquire all_pressed) power_on)) = WL_CONNECTED
  /\ total_delay (emitted (loop all_pressed) power_on) = 620.
Proof.
  assert (H : env_wifi_status all_pressed (log (exec (acquire all_pressed) power_on))
              = WL_CONNECTED) by reflexivity.
  split; [exact H|]. exact (proj2 (round_duration all_pressed power_on) H).
Defined.

Lemma count_above_bounds t vs : 0 <= count_above t vs <= Z.of_nat (length vs).
Proof. unfold count_above. pose proof (length_filter (fun v => t < v) vs). lia. Qed.

Lemma loop_status env w :
  status_of_pins (pins (exec (loop env) w))
  = decide_status (snd (eval (acquire env) w)) 4.
Proof.
  rewrite loop_pins. pose proof (loop_emitted env w) as He. cbv zeta in He.
  rewrite He, app_assoc, replay_app.
  generalize (replay (pins w) (emitted (acquire env) w
    ++ emitted (sendDataToGoogleSheets env (fst (eval (acquire env) w)))
         (exec (acquire env) w))).
  intros p. unfold status_of_pins, replay, decide_status, green_value, red_value.
  cbn [foldl apply_event].
  rewrite level_insert_eq, level_insert_ne, level_insert_eq by done.
  by destruct (snd (eval (acquire env) w) >? 4).
Qed.

(** X11.  The active count of a round lies between 0 and 12, and at the end
    of the round the LEDs show ALERT exactly when at least five of the twelve
    samples of that round were above PRESSURE_THRESHOLD. *)
Theorem alert_needs_five_active env w :
  0 <= snd (eval (acquire env) w) <= 12
  /\ (status_of_pins (pins (exec (loop env) w)) = Some ALERT
      <-> 5 <= count_above PRESSURE_THRESHOLD (analog_samples (emitted (loop env) w)))
  /\ (status_of_pins (pins (exec (loop env) w)) = Some NORMAL
      <-> count_above PRESSURE_THRESHOLD (analog_samples (emitted (loop env) w)) <= 4).
Proof.
  rewrite loop_status, (proj1 (proj2 (loop_readings env w))).
  destruct (acquire_count env w) as (vs & Hlen & -> & ->).
  rewrite active_fold_count by (unfold INT_MAX; lia).
  pose proof (count_above_bounds PRESSURE_THRESHOLD vs) as Hb. rewrite Hlen in Hb.
  rewrite Z.add_0_l. split; [lia|].
  unfold decide_status, green_value, red_value.
  destruct (Z.gtb_spec (count_above PRESSURE_THRESHOLD vs) 4); cbn; split; split;
    try done; lia.
Qed.

(** ** The select lines between sweeps *)

Lemma mux_channel_ext p q :
  (forall pin, In pin [S0; S1; S2; S3] -> p !! pin = q !! pin) ->
  mux_channel p = mux_channel q.
Proof.
  intros H. unfold mux_channel, level.
  rewrite (H S0), (H S1), (H S2), (H S3) by (cbn; tauto). reflexivity.
Qed.

(** X12.  Between two sweeps the multiplexer stays on the last channel
    swept: at the end of every round of [loop] the select lines address
    channel 11. *)
Theorem mux_rests_on_last_channel env w :
  mux_channel (pins (exec (loop env) w)) = 11.
Proof.
  rewrite loop_pins. pose proof (loop_emitted env w) as He. cbv zeta in He. rewrite He.
  assert (Hst : Forall (tame [GREEN_LED; RED_LED; BUILTIN_LED])
            (emitted (sendDataToGoogleSheets env (fst (eval (acquire env) w)))
               (exec (acquire env) w))).
  { apply send_Forall; try done; [intros b; cbn; tauto | by intros []]. }
  revert Hst.
  generalize (emitted (sendDataToGoogleSheets env (fst (eval (acquire env) w)))
                (exec (acquire env) w)).
  intros st Hst. clear He.
  destruct (acquire_emitted env w) as (vs & a & g & temp & h & t & pd & Hlen & ->).
  destruct (lookup_lt_is_Some_2 vs 11) as [v Hv]; [lia|].
  unfold acquire_trace. rewrite (sweep_trace_at vs 11 v Hv).
  assert (Hdrop : drop 12 vs = []) by (apply drop_ge; lia). rewrite Hdrop.
  cbn [sweep_trace]. unfold sweep_block. rewrite <- !app_assoc.
  rewrite replay_app, (replay_app _ (select_events _)).
  set (p := replay _ (sweep_trace 0 (take 11 vs))).
  transitivity (mux_channel (replay p (select_events (to_byte (Z.of_nat 11))))).
  - apply mux_channel_ext. intros pin Hpin.
    apply (replay_tame [GREEN_LED; RED_LED; BUILTIN_LED]).
    + rewrite !Forall_app. split; [by repeat constructor|].
      split; [constructor|]. split; [by repeat constructor|].
      split; [destruct (isnan h || isnan t); by repeat constructor|].
      split; [by repeat constructor|]. split; [exact Hst|].
      repeat constructor; cbn; tauto.
    + cbn in *. unfold S0, S1, S2, S3, GREEN_LED, RED_LED, BUILTIN_LED in *. lia.
  - rewrite mux_channel_select. reflexivity.
Qed.

(** ** The data string loses nothing *)

Lemma String_int_inj z z' : String_int z = String_int z' -> z = z'.
Proof.
  unfold String_int. intros H. apply DecimalZ.to_int_inj.
  assert (Hp : forall x, NilZero.int_of_string (NilZero.string_of_int (Z.to_int x))
                         = Some (Z.to_int x)).
  { intros x. apply NilZero.isi; destruct x; cbn; intros [= Hx]; try discriminate;
      by apply DecimalPos.Unsigned.to_uint_nonnil in Hx. }
  pose proof (Hp z) as Hz. rewrite H, Hp in Hz. by injection Hz.
Qed.

Lemma amp_free_uint d : amp_free (NilEmpty.string_of_uint d).
Proof. induction d; cbn; try done; split; done. Qed.

Lemma amp_free_String_int z : amp_free (String_int z).
Proof.
  unfold String_int, NilZero.string_of_int, NilZero.string_of_uint.
  destruct (Z.to_int z) as [d|d]; destruct d; cbn; repeat split; try done;
    apply amp_free_uint.
Qed.

(** Where an ampersand-free string ends inside a longer one is determined by
    the first ampersand or the end. *)
Lemma amp_free_cut s : forall s' T T',
  amp_free s -> amp_free s' -> amp_tail T -> amp_tail T' ->
  s +:+ T = s' +:+ T' -> s = s' /\ T = T'.
Proof.
  induction s as [|c s IH]; intros s' T T' Hs Hs' HT HT' Heq.
  - destruct s' as [|c' s']; [done|]. exfalso.
    change (T = String c' (s' +:+ T')) in Heq. destruct Hs' as [Hc _].
    destruct HT as [->|[r ->]]; [done|]. by injection Heq as <- _.
  - destruct s' as [|c' s'].
    + exfalso. change (String c (s +:+ T) = T') in Heq. destruct Hs as [Hc _].
      destruct HT' as [->|[r ->]]; [done|]. by injection Heq as -> _.
    + change (String c (s +:+ T) = String c' (s' +:+ T')) in Heq.
      injection Heq as -> Heq. destruct Hs as [_ Hs], Hs' as [_ Hs'].
      destruct (IH _ _ _ Hs Hs' HT HT' Heq) as [-> ->]. done.
Qed.

Lemma fsr_fields_join_inj vs : forall vs' i,
  String.concat "&" (fsr_fields i vs) = String.concat "&" (fsr_fields i vs') -> vs = vs'.
Proof.
  induction vs as [|v vs IH]; intros [|v' vs'] i Heq; try done.
  - cbn [fsr_fields] in Heq. rewrite concat_fields_cons in Heq.
    by destruct (fsr_fields (i + 1) vs').
  - cbn [fsr_fields] in Heq. rewrite concat_fields_cons in Heq.
    by destruct (fsr_fields (i + 1) vs).
  - cbn [fsr_fields] in Heq. rewrite !concat_fields_cons in Heq.
    set (T := match fsr_fields (i + 1) vs with
              | [] => "" | _ => "&" +:+ String.concat "&" (fsr_fields (i + 1) vs) end).
    set (T' := match fsr_fields (i + 1) vs' with
               | [] => "" | _ => "&" +:+ String.concat "&" (fsr_fields (i + 1) vs') end).
    assert (Heq' : ("fsr" +:+ String_int i +:+ "=" +:+ String_int v) +:+ T
                   = ("fsr" +:+ String_int i +:+ "=" +:+ String_int v') +:+ T').
    { subst T T'. destruct (fsr_fields (i + 1) vs), (fsr_fields (i + 1) vs');
        rewrite ?str_app_nil_r; rewrite ?str_app_nil_r in Heq; exact Heq. }
    clear Heq. rewrite !str_app_assoc in Heq'.
    do 3 apply (inj (String.app _)) in Heq'.
    assert (HT : amp_tail T).
    { subst T. destruct (fsr_fields (i + 1) vs); [by left|right]. by eexists. }
    assert (HT' : amp_tail T').
    { subst T'. destruct (fsr_fields (i + 1) vs'); [by left|right]. by eexists. }
    destruct (amp_free_cut _ _ _ _ (amp_free_String_int v) (amp_free_String_int v')
                HT HT' Heq') as [Hv HTT].
    apply String_int_inj in Hv as ->. f_equal.
    apply (IH vs' (i + 1)).
    subst T T'. destruct vs as [|x vs], vs' as [|x' vs']; try done.
    cbn [fsr_fields] in *. by injection HTT.
Qed.

(** X13.  The data string of a sweep determines its samples: two sweeps,
    whatever their environments, channel counts and thresholds, return the
    same string exactly when they sampled the same sequence of values. *)
Theorem fsr_data_lossless env env' n n' t t' w w' :
  0 <= n -> 0 <= n' ->
  fst (eval (sweep env n t) w) = fst (eval (sweep env' n' t') w')
  <-> analog_samples (emitted (sweep env n t) w)
      = analog_samples (emitted (sweep env' n' t') w').
Proof.
  intros Hn Hn'.
  destruct (sweep_facts env n t w) as (vs & Hlen & _ & Hs & Hev & _).
  destruct (sweep_facts env' n' t' w') as (vs' & Hlen' & _ & Hs' & Hev' & _).
  rewrite Hs, Hs', Hev, Hev'. cbn [fst].
  rewrite !fsr_fold_query by lia.
  change ("" +:+ ?x) with x.
  split.
  - apply fsr_fields_join_inj.
  - intros ->. reflexivity.
Qed.

(** Two sweeps that differ in one sample return different strings. *)
Lemma fsr_data_lossless_witness :
  0 <= 2 /\
  fst (eval (sweep (scripted [1; 2] 3 S754_nan S754_nan) 2 100) power_on)
  <> fst (eval (sweep (scripted [1; 30] 3 S754_nan S754_nan) 2 100) power_on).
Proof.
  split; [lia|]. intros Heq.
  apply (fsr_data_lossless (scripted [1; 2] 3 S754_nan S754_nan)
           (scripted [1; 30] 3 S754_nan S754_nan) 2 2 100 100 power_on power_on
           ltac:(lia) ltac:(lia)) in Heq.
  vm_compute in Heq. discriminate Heq.
Defined.
